(** * Subscription producers and consumers of [rtcbot/base.py]

    A shallow embedding of the subscription machinery of rtcbot: the
    producer core ([BaseSubscriptionProducer]), the consumer core
    ([BaseSubscriptionConsumer]) and their thread-, process-bridged and
    composite variants.

    Python objects are records carrying an identity and the two
    capabilities the producer inspects; the queues shared between
    producers, consumers and their users live in an explicit store
    ([world]), so that aliasing is visible.  Methods are state-passing
    functions; a method that can raise returns a [result]. *)

From stdpp Require Import gmap list.

(** ** Python objects *)

(** An object that can be handed to [subscribe] or [putSubscription].
    [oid] is its identity.  The two booleans are what the source tests:
    [callable(getattr(o, "put_nowait", None))] and
    [inspect.iscoroutinefunction(o)].  They are fixed for the lifetime of
    the object. *)
Record pyobj := PyObj {
  oid : nat;
  has_put_nowait : bool;
  iscoroutinefunction : bool;
}.

#[global] Instance pyobj_eq_dec : EqDecision pyobj.
Proof. solve_decision. Defined.

#[global] Instance pyobj_countable : Countable pyobj.
Proof.
  refine (inj_countable'
            (fun o => (oid o, has_put_nowait o, iscoroutinefunction o))
            (fun t => PyObj t.1.1 t.1.2 t.2) _).
  by intros [].
Defined.

(** A class used as a factory of subscriptions ([defaultSubscriptionClass],
    [directPutSubscriptionType]): what matters is the capabilities of its
    instances.  [asyncio.Queue] is the default of both. *)
Record subscription_class := SubscriptionClass {
  cls_has_put_nowait : bool;
  cls_iscoroutinefunction : bool;
}.

Definition asyncio_Queue : subscription_class := SubscriptionClass true false.

(** Exceptions that cross a method boundary in the source. *)
Inductive exn :=
| KeyError (o : pyobj)
| SubscriptionClosed
| CancelledError
| TimeoutError
| OtherError (tag : nat).

Inductive result (A : Type) :=
| Ok (a : A)
| Raise (e : exn).
Arguments Ok {A} a.
Arguments Raise {A} e.

(** ** The shared store *)

Section World.
Context {item : Type}.

(** [queues]: the buffered items of every queue-like object, oldest
    first.  [called]: the synchronous callback invocations performed so
    far, in order.  [futures]: the coroutine invocations handed to
    [asyncio.ensure_future], in order.  [next_oid]: the allocator. *)
Record world := World {
  queues : gmap pyobj (list item);
  called : list (pyobj * item);
  futures : list (pyobj * item);
  next_oid : nat;
}.

Definition empty_world : world := World ∅ [] [] 0.

Definition contents (w : world) (q : pyobj) : list item :=
  default [] (queues w !! q).

Definition set_contents (q : pyobj) (l : list item) (w : world) : world :=
  World (<[q := l]> (queues w)) (called w) (futures w) (next_oid w).

(** [q.put_nowait(x)] on an unbounded FIFO queue. *)
Definition queue_put_nowait (q : pyobj) (x : item) (w : world) : world :=
  set_contents q (contents w q ++ [x]) w.

(** [c(x)] for a synchronous callback [c]; the callback is taken to
    return normally (an exception it raised would leave [_put_nowait]
    at that point). *)
Definition invoke (c : pyobj) (x : item) (w : world) : world :=
  World (queues w) (called w ++ [(c, x)]) (futures w) (next_oid w).

(** [asyncio.ensure_future(c(x))] for a coroutine function [c]. *)
Definition ensure_future (c : pyobj) (x : item) (w : world) : world :=
  World (queues w) (called w) (futures w ++ [(c, x)]) (next_oid w).

(** [cls()]: a new object, distinct from every object allocated so far,
    whose buffer is empty. *)
Definition construct (cls : subscription_class) (w : world) : pyobj * world :=
  let o := PyObj (next_oid w) (cls_has_put_nowait cls) (cls_iscoroutinefunction cls) in
  (o, World (<[o := []]> (queues w)) (called w) (futures w) (S (next_oid w))).

(** An object exists in [w]. *)
Definition allocated (w : world) (o : pyobj) : Prop := oid o < next_oid w.

(** The items a synchronous callback has been called with. *)
Definition calls_of (c : pyobj) (l : list (pyobj * item)) : list item :=
  snd <$> filter (fun e => e.1 = c) l.
End World.
Arguments world : clear implicits.

(** ** Producer core *)

Module BaseSubscriptionProducer.
Section Producer.
Context {item : Type}.

(** The private (name-mangled) attributes of [BaseSubscriptionProducer]. *)
Record registry := Registry {
  __subscriptions : gset pyobj;
  __callbacks : gset pyobj;
  __cocallbacks : gset pyobj;
  __defaultSubscriptionClass : subscription_class;
  __defaultSubscription : option pyobj;
}.

(** The attributes [_shouldClose] and [_ready] are reached through
    [self]: plain attributes of the base class, properties in
    [ProcessSubscriptionProducer]. *)
Class Self (S : Type) := {
  private : S → registry;
  with_private : registry → S → S;
  get_shouldClose : S → bool;
  set_shouldClose : bool → S → S;
  get_ready : S → bool;
  set_ready : bool → S → S;
}.

Record producer := Producer {
  attrs : registry;
  _shouldClose : bool;
  _ready : bool;
}.

#[global] Instance producer_self : Self producer := {|
  private := attrs;
  with_private r p := Producer r (_shouldClose p) (_ready p);
  get_shouldClose := _shouldClose;
  set_shouldClose v p := Producer (attrs p) v (_ready p);
  get_ready := _ready;
  set_ready v p := Producer (attrs p) (_shouldClose p) v;
|}.

Definition subscribe (subscription : option pyobj) (self : registry) (w : world item)
  : pyobj * registry * world item :=
  let '(subscription, w) :=
    match subscription with
    | None => construct (__defaultSubscriptionClass self) w
    | Some s => (s, w)
    end in
  if has_put_nowait subscription then
    (subscription,
     Registry ({[subscription]} ∪ __subscriptions self) (__callbacks self)
              (__cocallbacks self) (__defaultSubscriptionClass self)
              (__defaultSubscription self), w)
  else if iscoroutinefunction subscription then
    (subscription,
     Registry (__subscriptions self) (__callbacks self)
              ({[subscription]} ∪ __cocallbacks self) (__defaultSubscriptionClass self)
              (__defaultSubscription self), w)
  else
    (subscription,
     Registry (__subscriptions self) ({[subscription]} ∪ __callbacks self)
              (__cocallbacks self) (__defaultSubscriptionClass self)
              (__defaultSubscription self), w).

(** The three loops of [_put_nowait]; a set is iterated in the order of
    [elements]. *)
Definition _put_nowait (element : item) (self : registry) (w : world item) : world item :=
  let w := foldl (fun w s => queue_put_nowait s element w) w (elements (__subscriptions self)) in
  let w := foldl (fun w c => invoke c element w) w (elements (__callbacks self)) in
  foldl (fun w c => ensure_future c element w) w (elements (__cocallbacks self)).

(** [set.remove]: raises [KeyError] when the element is absent. *)
Definition set_remove (o : pyobj) (s : gset pyobj) : result (gset pyobj) :=
  if decide (o ∈ s) then Ok (s ∖ {[o]}) else Raise (KeyError o).

Definition unsubscribe_given (subscription : pyobj) (self : registry) : result registry :=
  if has_put_nowait subscription then
    match set_remove subscription (__subscriptions self) with
    | Ok s => Ok (Registry s (__callbacks self) (__cocallbacks self)
                           (__defaultSubscriptionClass self) (__defaultSubscription self))
    | Raise e => Raise e
    end
  else if iscoroutinefunction subscription then
    match set_remove subscription (__cocallbacks self) with
    | Ok s => Ok (Registry (__subscriptions self) (__callbacks self) s
                           (__defaultSubscriptionClass self) (__defaultSubscription self))
    | Raise e => Raise e
    end
  else
    match set_remove subscription (__callbacks self) with
    | Ok s => Ok (Registry (__subscriptions self) s (__cocallbacks self)
                           (__defaultSubscriptionClass self) (__defaultSubscription self))
    | Raise e => Raise e
    end.

(** [unsubscribe]: the recursive call of the source, on the default
    subscription, is the [unsubscribe_given] branch. *)
Definition unsubscribe (subscription : option pyobj) (self : registry) : result registry :=
  match subscription with
  | None =>
      match __defaultSubscription self with
      | Some d =>
          match unsubscribe_given d self with
          | Ok self => Ok (Registry (__subscriptions self) (__callbacks self)
                                    (__cocallbacks self) (__defaultSubscriptionClass self)
                                    None)
          | Raise e => Raise e
          end
      | None => Ok self
      end
  | Some s => unsubscribe_given s self
  end.

Definition unsubscribeAll (self : registry) : registry :=
  Registry ∅ ∅ ∅ (__defaultSubscriptionClass self) None.

Definition __defaultSubscribe (self : registry) (w : world item) : registry * world item :=
  match __defaultSubscription self with
  | None =>
      let '(s, self, w) := subscribe None self w in
      (Registry (__subscriptions self) (__callbacks self) (__cocallbacks self)
                (__defaultSubscriptionClass self) (Some s), w)
  | Some _ => (self, w)
  end.

(** What [await q.get()] yields at the moment it is run: the oldest
    buffered item, or nothing yet (the caller stays suspended). *)
Definition queue_get (q : pyobj) (w : world item) : option item * world item :=
  match contents w q with
  | x :: rest => (Some x, set_contents q rest w)
  | [] => (None, w)
  end.

Definition get (self : registry) (w : world item) : option item * registry * world item :=
  let '(self, w) := __defaultSubscribe self w in
  match __defaultSubscription self with
  | Some d => let '(r, w) := queue_get d w in (r, self, w)
  | None => (None, self, w)
  end.

Definition close {S} `{Self S} (self : S) : S :=
  let self := set_shouldClose true self in
  let self := with_private (unsubscribeAll (private self)) self in
  set_ready false self.

Definition ready {S} `{Self S} (self : S) : bool := get_ready self.

Definition __init__ (defaultSubscriptionClass : subscription_class)
    (defaultAutosubscribe : bool) (ready : bool) (w : world item) : producer * world item :=
  let r := Registry ∅ ∅ ∅ defaultSubscriptionClass None in
  let '(r, w) := if defaultAutosubscribe then __defaultSubscribe r w else (r, w) in
  (Producer r false ready, w).

(** *** Sequences of calls *)

(** The calls that act on the private attributes only.  [PutNowait] is
    the protected [_put_nowait], called by subclasses. *)
Inductive call :=
| Subscribe (s : option pyobj)
| Unsubscribe (s : option pyobj)
| UnsubscribeAll
| Get
| PutNowait (x : item).

(** A call that raises leaves the attributes as they were. *)
Definition do_call (c : call) (self : registry) (w : world item) : registry * world item :=
  match c with
  | Subscribe s => let '(_, self, w) := subscribe s self w in (self, w)
  | Unsubscribe s =>
      match unsubscribe s self with
      | Ok self' => (self', w)
      | Raise _ => (self, w)
      end
  | UnsubscribeAll => (unsubscribeAll self, w)
  | Get => let '(_, self, w) := get self w in (self, w)
  | PutNowait x => (self, _put_nowait x self w)
  end.

Definition do_calls (cs : list call) (self : registry) (w : world item)
  : registry * world item :=
  foldl (fun s c => do_call c s.1 s.2) (self, w) cs.

(** The items broadcast by a sequence of calls, in order. *)
Definition broadcasts (cs : list call) : list item :=
  omap (fun c => match c with PutNowait x => Some x | _ => None end) cs.

(** The items that the [get] calls of a sequence return, in order; a
    [get] that finds the default subscription empty returns none. *)
Fixpoint got (cs : list call) (self : registry) (w : world item) : list item :=
  match cs with
  | [] => []
  | c :: cs =>
      let here :=
        match c with
        | Get => match (get self w).1.1 with Some x => [x] | None => [] end
        | _ => []
        end in
      here ++ got cs (do_call c self w).1 (do_call c self w).2
  end.

(** Calls of the whole object: those above, and [close]. *)
Inductive op :=
| Call (c : call)
| Close.

Definition do_op {S} `{Self S} (o : op) (self : S) (w : world item) : S * world item :=
  match o with
  | Call c => let '(r, w) := do_call c (private self) w in (with_private r self, w)
  | Close => (close self, w)
  end.

Definition do_ops {S} `{Self S} (os : list op) (self : S) (w : world item) : S * world item :=
  foldl (fun s o => do_op o s.1 s.2) (self, w) os.

(** *** Predicates on the registries *)

Definition registered (self : registry) (o : pyobj) : Prop :=
  o ∈ __subscriptions self ∨ o ∈ __callbacks self ∨ o ∈ __cocallbacks self.

(** Every registered object sits in the set its capabilities select. *)
Definition classified (self : registry) : Prop :=
  (∀ o, o ∈ __subscriptions self → has_put_nowait o = true) ∧
  (∀ o, o ∈ __cocallbacks self →
        has_put_nowait o = false ∧ iscoroutinefunction o = true) ∧
  (∀ o, o ∈ __callbacks self →
        has_put_nowait o = false ∧ iscoroutinefunction o = false).

Definition at_most_one_registry (self : registry) : Prop :=
  ∀ o, ¬ (o ∈ __subscriptions self ∧ o ∈ __callbacks self) ∧
       ¬ (o ∈ __subscriptions self ∧ o ∈ __cocallbacks self) ∧
       ¬ (o ∈ __callbacks self ∧ o ∈ __cocallbacks self).

(** The set [subscribe] adds an object to. *)
Definition add_to (o : pyobj) (self : registry) : registry :=
  if has_put_nowait o then
    Registry ({[o]} ∪ __subscriptions self) (__callbacks self) (__cocallbacks self)
             (__defaultSubscriptionClass self) (__defaultSubscription self)
  else if iscoroutinefunction o then
    Registry (__subscriptions self) (__callbacks self) ({[o]} ∪ __cocallbacks self)
             (__defaultSubscriptionClass self) (__defaultSubscription self)
  else
    Registry (__subscriptions self) ({[o]} ∪ __callbacks self) (__cocallbacks self)
             (__defaultSubscriptionClass self) (__defaultSubscription self).

(** A call that neither removes [q] from the registries nor reads from
    its buffer. *)
Definition keeps (q : pyobj) (c : call) : Prop :=
  match c with
  | Unsubscribe (Some o) => o ≠ q
  | UnsubscribeAll => False
  | Subscribe _ | Unsubscribe None | Get | PutNowait _ => True
  end.

(** The default subscription, when there is one, is registered and
    exists; the registries are classified. *)
Definition sound (self : registry) (w : world item) : Prop :=
  classified self ∧
  ∀ d, __defaultSubscription self = Some d → registered self d ∧ allocated w d.

(** The default subscription is never handed out, so no caller passes
    it to [unsubscribe]. *)
Fixpoint default_private (ms : list call) (self : registry) (w : world item) : Prop :=
  match ms with
  | [] => True
  | m :: ms =>
      match m with
      | Unsubscribe (Some o) => __defaultSubscription self ≠ Some o
      | _ => True
      end ∧
      default_private ms (do_call m self w).1 (do_call m self w).2
  end.

(** A call that does not forget the default subscription. *)
Definition keeps_default (c : call) : Prop :=
  match c with
  | Unsubscribe None | UnsubscribeAll => False
  | _ => True
  end.
End Producer.
Arguments call : clear implicits.
Arguments op : clear implicits.
End BaseSubscriptionProducer.

(** ** Consumer core *)

Module BaseSubscriptionConsumer.
Section Consumer.
Context {item : Type}.

(** The task wrapping [self._subscription.get()].  [awaited] is the
    subscription whose [get] it runs.  A task on which [cancel()] was
    called is not [done()] until the event loop has run it once more. *)
Inductive task_state :=
| Pending
| CancelRequested
| Finished (v : item)
| Cancelled
| Failed (e : exn).

Record task := Task {
  awaited : pyobj;
  state : task_state;
}.

Definition done (t : task) : bool :=
  match state t with
  | Pending | CancelRequested => false
  | Finished _ | Cancelled | Failed _ => true
  end.

Definition cancel (t : task) : task :=
  if done t then t else Task (awaited t) CancelRequested.

Record consumer := Consumer {
  __directPutSubscriptionType : subscription_class;
  __directPutSubscription : pyobj;
  _subscription : pyobj;
  _shouldClose : bool;
  _getTask : option task;
  _ready : bool;
}.

Definition __init__ (directPutSubscriptionType : subscription_class) (ready : bool)
    (w : world item) : consumer * world item :=
  let '(q, w) := construct directPutSubscriptionType w in
  (Consumer directPutSubscriptionType q q false None ready, w).

Definition with_ready (v : bool) (self : consumer) : consumer :=
  Consumer (__directPutSubscriptionType self) (__directPutSubscription self)
           (_subscription self) (_shouldClose self) (_getTask self) v.

Definition with_shouldClose (v : bool) (self : consumer) : consumer :=
  Consumer (__directPutSubscriptionType self) (__directPutSubscription self)
           (_subscription self) v (_getTask self) (_ready self).

Definition with_getTask (t : option task) (self : consumer) : consumer :=
  Consumer (__directPutSubscriptionType self) (__directPutSubscription self)
           (_subscription self) (_shouldClose self) t (_ready self).

Definition with_subscription (s : pyobj) (self : consumer) : consumer :=
  Consumer (__directPutSubscriptionType self) (__directPutSubscription self)
           s (_shouldClose self) (_getTask self) (_ready self).

Definition with_directPutSubscription (q : pyobj) (self : consumer) : consumer :=
  Consumer (__directPutSubscriptionType self) q
           (_subscription self) (_shouldClose self) (_getTask self) (_ready self).

(** [if self._getTask is not None and not self._getTask.done():
       self._getTask.cancel()] *)
Definition cancel_getTask (self : consumer) : consumer :=
  match _getTask self with
  | Some t => if negb (done t) then with_getTask (Some (cancel t)) self else self
  | None => self
  end.

Definition putSubscription (subscription : pyobj) (self : consumer) : consumer :=
  if decide (subscription = _subscription self) then self
  else
    let self := with_subscription subscription self in
    cancel_getTask self.

Definition stop (self : consumer) (w : world item) : consumer * world item :=
  let '(q, w) := construct (__directPutSubscriptionType self) w in
  let self := with_directPutSubscription q self in
  (putSubscription (__directPutSubscription self) self, w).

Definition put_nowait (data : item) (self : consumer) (w : world item)
  : consumer * world item :=
  let '(self, w) :=
    if decide (_subscription self ≠ __directPutSubscription self)
    then stop self w else (self, w) in
  (self, queue_put_nowait (__directPutSubscription self) data w).

Definition close (self : consumer) : consumer :=
  let self := with_ready false self in
  let self := with_shouldClose true self in
  cancel_getTask self.

Definition subscription (self : consumer) : option pyobj :=
  if decide (_subscription self = __directPutSubscription self) then None
  else Some (_subscription self).

Definition ready (self : consumer) : bool := _ready self.

(** *** The wait loop *)

(** Where a call of [_get] stands: suspended in [await self._getTask],
    returned, or raised. *)
Inductive status :=
| Awaiting
| Returned (v : item)
| Raised (e : exn).

(** From the [while] test to the next suspension: the loop either
    leaves and raises, or creates the task and suspends on it. *)
Definition _get_loop (self : consumer) : consumer * status :=
  if _shouldClose self then (self, Raised SubscriptionClosed)
  else (with_getTask (Some (Task (_subscription self) Pending)) self, Awaiting).

(** The [try] block once the awaited task is done: a value is
    returned; [CancelledError], [SubscriptionClosed] and, by the bare
    [except], anything else loop back. *)
Definition _get_resume (self : consumer) : consumer * status :=
  match _getTask self with
  | Some t =>
      match state t with
      | Finished v => (self, Returned v)
      | Cancelled => _get_loop self
      | Failed SubscriptionClosed => _get_loop self
      | Failed _ => _get_loop self
      | Pending | CancelRequested => (self, Awaiting)
      end
  | None => (self, Awaiting)
  end.

(** The event loop runs the task: a requested cancellation is
    delivered (the item, if any, stays in the queue); otherwise the
    oldest buffered item of the awaited queue is taken. *)
Definition run_task (t : task) (w : world item) : task * world item :=
  match state t with
  | CancelRequested => (Task (awaited t) Cancelled, w)
  | Pending =>
      match contents w (awaited t) with
      | x :: rest => (Task (awaited t) (Finished x), set_contents (awaited t) rest w)
      | [] => (t, w)
      end
  | Finished _ | Cancelled | Failed _ => (t, w)
  end.

(** The awaited [get()] raises [e] (a subscription that is not a plain
    queue may do so). *)
Definition fail_task (e : exn) (t : task) : task :=
  match state t with
  | Pending => Task (awaited t) (Failed e)
  | _ => t
  end.

(** What happens around a suspended [_get]: the scheduler runs the
    task, the source raises, other code calls the public methods, or a
    producer feeds a queue. *)
Inductive env_event :=
| RunTask
| SourceRaises (e : exn)
| PutSubscription (s : pyobj)
| PutNowait (x : item)
| Stop
| Close
| Feed (q : pyobj) (x : item).

Definition env_step (ev : env_event) (self : consumer) (w : world item)
  : consumer * world item :=
  match ev with
  | RunTask =>
      match _getTask self with
      | Some t => let '(t, w) := run_task t w in (with_getTask (Some t) self, w)
      | None => (self, w)
      end
  | SourceRaises e =>
      match _getTask self with
      | Some t => (with_getTask (Some (fail_task e t)) self, w)
      | None => (self, w)
      end
  | PutSubscription s => (putSubscription s self, w)
  | PutNowait x => put_nowait x self w
  | Stop => stop self w
  | Close => (close self, w)
  | Feed q x => (self, queue_put_nowait q x w)
  end.

Inductive event :=
| Env (ev : env_event)
| Resume.

Definition config : Type := consumer * world item * status.

Definition step (ev : event) (c : config) : config :=
  let '(self, w, st) := c in
  match ev with
  | Env e => let '(self, w) := env_step e self w in (self, w, st)
  | Resume =>
      match st with
      | Awaiting => let '(self, st) := _get_resume self in (self, w, st)
      | _ => c
      end
  end.

Definition run (evs : list event) (c : config) : config := foldl (fun c ev => step ev c) c evs.

(** A call of [_get] under the schedule [evs]. *)
Definition _get (evs : list event) (self : consumer) (w : world item) : config :=
  let '(self, st) := _get_loop self in run evs (self, w, st).

(** *** Predicates on configurations *)

(** The event does not install [old] as the active subscription. *)
Definition never_installs (old : pyobj) (ev : event) : Prop :=
  ev ≠ Env (PutSubscription old).

Definition not_close (ev : event) : Prop := ev ≠ Env Close.

(** A wait that either runs the [get] of another subscription than
    [old], or has been cancelled. *)
Definition cancelled_or_elsewhere (old : pyobj) (t : task) : Prop :=
  awaited t ≠ old ∨ state t = CancelRequested ∨ state t = Cancelled.

(** No value of [old] can come out of the call: the wait in flight is
    cancelled or elsewhere; a value returned was delivered by a task on
    another subscription; the only exception raised is the terminal
    one. *)
Definition wait_off (old : pyobj) (st : status) (ot : option task) : Prop :=
  match st with
  | Awaiting => ∀ t, ot = Some t → cancelled_or_elsewhere old t
  | Returned v => ∃ src, ot = Some (Task src (Finished v)) ∧ src ≠ old
  | Raised e => e = SubscriptionClosed
  end.

(** [old] has been swapped out. *)
Definition swapped_out (old : pyobj) (c : config) : Prop :=
  _subscription c.1.1 ≠ old ∧ allocated c.1.2 old ∧
  wait_off old c.2 (_getTask c.1.1) ∧
  (∀ e, c.2 = Raised e → _shouldClose c.1.1 = true).

(** The state of a consumer once [close] has been called. *)
Definition closed (self : consumer) : Prop :=
  _shouldClose self = true ∧ _ready self = false ∧
  ∀ t, _getTask self = Some t → state t ≠ Pending.
End Consumer.
Arguments task_state : clear implicits.
Arguments task : clear implicits.
Arguments consumer : clear implicits.
Arguments status : clear implicits.
Arguments env_event : clear implicits.
Arguments event : clear implicits.
Arguments config : clear implicits.
End BaseSubscriptionConsumer.

(** ** Thread-bridged producer *)

Module ThreadedSubscriptionProducer.
Section Threaded.
Context {item : Type}.
Import BaseSubscriptionProducer.

(** Where the worker thread running [_producer] stands. *)
Inductive thread_pc :=
| NotStarted
| Running
| Exited.

(** [_loop]: the calls [super()._put_nowait(data)] handed to
    [call_soon_threadsafe] and not yet run by the event loop.
    [testResultQueue] holds at most the end marker. *)
Record threaded_producer := ThreadedProducer {
  base : producer;
  _loop : list item;
  testQueue : list item;
  testResultQueue : bool;
  _producerThread : thread_pc;
}.

Definition with_base (b : producer) (self : threaded_producer) : threaded_producer :=
  ThreadedProducer b (_loop self) (testQueue self) (testResultQueue self)
                   (_producerThread self).

#[global] Instance threaded_self : Self threaded_producer := {|
  private self := private (base self);
  with_private r self := with_base (with_private r (base self)) self;
  get_shouldClose self := get_shouldClose (base self);
  set_shouldClose v self := with_base (set_shouldClose v (base self)) self;
  get_ready self := get_ready (base self);
  set_ready v self := with_base (set_ready v (base self)) self;
|}.

Definition __init__ (defaultSubscriptionType : subscription_class) (w : world item)
  : threaded_producer * world item :=
  let '(b, w) := BaseSubscriptionProducer.__init__ defaultSubscriptionType false false w in
  (ThreadedProducer b [] [] false NotStarted, w).

(** The override: the broadcast is scheduled on the loop, not run. *)
Definition _put_nowait (data : item) (self : threaded_producer) : threaded_producer :=
  ThreadedProducer (base self) (_loop self ++ [data]) (testQueue self)
                   (testResultQueue self) (_producerThread self).

(** One step of the worker thread in [_producer]. *)
Definition _producer (self : threaded_producer) : threaded_producer :=
  match _producerThread self with
  | NotStarted =>
      let self := ThreadedProducer (base self) (_loop self) [] false Running in
      set_ready true self
  | Running =>
      if get_shouldClose self then
        ThreadedProducer (base self) (_loop self) (testQueue self) true Exited
      else
        match testQueue self with
        | x :: rest =>
            _put_nowait x (ThreadedProducer (base self) (_loop self) rest
                                            (testResultQueue self) Running)
        | [] => self
        end
  | Exited => self
  end.

(** The event loop runs the oldest scheduled broadcast. *)
Definition loop_run (self : threaded_producer) (w : world item)
  : threaded_producer * world item :=
  match _loop self with
  | x :: rest =>
      (ThreadedProducer (base self) rest (testQueue self) (testResultQueue self)
                        (_producerThread self),
       BaseSubscriptionProducer._put_nowait x (private self) w)
  | [] => (self, w)
  end.

(** [super().close()]; the [join] that follows changes no attribute. *)
Definition close (self : threaded_producer) : threaded_producer :=
  BaseSubscriptionProducer.close self.

Inductive event :=
| Api (c : call item)
| CloseCall
| WorkerStep
| LoopStep
| TestPut (x : item).

Definition step (ev : event) (self : threaded_producer) (w : world item)
  : threaded_producer * world item :=
  match ev with
  | Api (PutNowait x) => (_put_nowait x self, w)
  | Api c => do_op (Call c) self w
  | CloseCall => (close self, w)
  | WorkerStep => (_producer self, w)
  | LoopStep => loop_run self w
  | TestPut x =>
      (ThreadedProducer (base self) (_loop self) (testQueue self ++ [x])
                        (testResultQueue self) (_producerThread self), w)
  end.

Definition run (evs : list event) (self : threaded_producer) (w : world item)
  : threaded_producer * world item :=
  foldl (fun s ev => step ev s.1 s.2) (self, w) evs.
End Threaded.
Arguments threaded_producer : clear implicits.
Arguments event : clear implicits.
End ThreadedSubscriptionProducer.

(** ** Process-bridged producer *)

Module ProcessSubscriptionProducer.
Section Process.
Context {item : Type}.
Import BaseSubscriptionProducer.

(** Where the child process running [__producerSetup] stands. *)
Inductive process_pc :=
| Starting
| Producing
| Finished.

(** The two [multiprocessing.Event]s are booleans (set / not set);
    [_producerQueue] is the cross-process queue; [_loop] is as in the
    thread-bridged producer. *)
Record process_producer := ProcessProducer {
  inherited : registry;
  __readyEvent : bool;
  __closeEvent : bool;
  _producerQueue : list item;
  _loop : list item;
  _producerProcess : process_pc;
}.

(** The property [_shouldClose] and its setter. *)
Definition _shouldClose (self : process_producer) : bool := __closeEvent self.

Definition _shouldClose_setter (value : bool) (self : process_producer) : process_producer :=
  if value then
    ProcessProducer (inherited self) (__readyEvent self) true (_producerQueue self)
                    (_loop self) (_producerProcess self)
  else
    ProcessProducer (inherited self) (__readyEvent self) false (_producerQueue self)
                    (_loop self) (_producerProcess self).

(** The property [_ready] and its setter. *)
Definition _ready (self : process_producer) : bool := __readyEvent self.

Definition _ready_setter (value : bool) (self : process_producer) : process_producer :=
  if value then
    ProcessProducer (inherited self) true (__closeEvent self) (_producerQueue self)
                    (_loop self) (_producerProcess self)
  else
    ProcessProducer (inherited self) false (__closeEvent self) (_producerQueue self)
                    (_loop self) (_producerProcess self).

#[global] Instance process_self : Self process_producer := {|
  private := inherited;
  with_private r self :=
    ProcessProducer r (__readyEvent self) (__closeEvent self) (_producerQueue self)
                    (_loop self) (_producerProcess self);
  get_shouldClose := _shouldClose;
  set_shouldClose := _shouldClose_setter;
  get_ready := _ready;
  set_ready := _ready_setter;
|}.

(** The events are created unset; [super().__init__] then assigns
    [_shouldClose = False] and [_ready = False] through the setters. *)
Definition __init__ (defaultSubscriptionType : subscription_class)
  : process_producer :=
  let self := ProcessProducer (Registry ∅ ∅ ∅ defaultSubscriptionType None)
                              false false [] [] Starting in
  let self := _shouldClose_setter false self in
  _ready_setter false self.

(** The override: the item goes to the cross-process queue. *)
Definition _put_nowait (data : item) (self : process_producer) : process_producer :=
  ProcessProducer (inherited self) (__readyEvent self) (__closeEvent self)
                  (_producerQueue self ++ [data]) (_loop self) (_producerProcess self).

(** One turn of the bridging thread in [__queueReader]: while the
    close event is unset, an item of the cross-process queue, if there
    is one, is scheduled for broadcast on the loop. *)
Definition __queueReader (self : process_producer) : process_producer :=
  if _shouldClose self then self
  else
    match _producerQueue self with
    | data :: rest =>
        ProcessProducer (inherited self) (__readyEvent self) (__closeEvent self)
                        rest (_loop self ++ [data]) (_producerProcess self)
    | [] => self
    end.

(** The base [_producer]: sets readiness. *)
Definition _producer (self : process_producer) : process_producer :=
  _ready_setter true self.

(** One step of the child process in [__producerSetup]: run
    [_producer], then clear readiness and signal shutdown. *)
Definition __producerSetup (self : process_producer) : process_producer :=
  match _producerProcess self with
  | Starting =>
      let self := _producer self in
      ProcessProducer (inherited self) (__readyEvent self) (__closeEvent self)
                      (_producerQueue self) (_loop self) Producing
  | Producing =>
      let self := _ready_setter false self in
      let self := _shouldClose_setter true self in
      ProcessProducer (inherited self) (__readyEvent self) (__closeEvent self)
                      (_producerQueue self) (_loop self) Finished
  | Finished => self
  end.

Definition loop_run (self : process_producer) (w : world item)
  : process_producer * world item :=
  match _loop self with
  | x :: rest =>
      (ProcessProducer (inherited self) (__readyEvent self) (__closeEvent self)
                       (_producerQueue self) rest (_producerProcess self),
       BaseSubscriptionProducer._put_nowait x (private self) w)
  | [] => (self, w)
  end.

(** [super().close()], then the joins; a child that is still alive
    is terminated. *)
Definition close (self : process_producer) : process_producer :=
  let self := BaseSubscriptionProducer.close self in
  ProcessProducer (inherited self) (__readyEvent self) (__closeEvent self)
                  (_producerQueue self) (_loop self) Finished.

Inductive event :=
| Api (c : call item)
| CloseCall
| ChildStep
| ReaderStep
| LoopStep.

Definition step (ev : event) (self : process_producer) (w : world item)
  : process_producer * world item :=
  match ev with
  | Api (PutNowait x) => (_put_nowait x self, w)
  | Api c => do_op (Call c) self w
  | CloseCall => (close self, w)
  | ChildStep => (__producerSetup self, w)
  | ReaderStep => (__queueReader self, w)
  | LoopStep => loop_run self w
  end.

Definition run (evs : list event) (self : process_producer) (w : world item)
  : process_producer * world item :=
  foldl (fun s ev => step ev s.1 s.2) (self, w) evs.
End Process.
Arguments process_producer : clear implicits.
Arguments event : clear implicits.
End ProcessSubscriptionProducer.

(** ** Thread-bridged consumer *)

Module ThreadedSubscriptionConsumer.
Section Threaded.
Context {item : Type}.
Import BaseSubscriptionConsumer.

(** Where the worker thread stands inside [_get]: before the [while]
    test, before the locked submission, blocked in [result(1)],
    returned, or raised. *)
Inductive get_pc :=
| AtTest
| AtSubmit
| Blocked
| Returned (v : item)
| Raised (e : exn).

Definition _get_test (self : consumer item) : get_pc :=
  if _shouldClose self then Raised SubscriptionClosed else AtSubmit.

(** [with self._taskLock: self._getTask = run_coroutine_threadsafe(...)] *)
Definition _get_submit (self : consumer item) : consumer item :=
  with_getTask (Some (Task (_subscription self) Pending)) self.

Inductive wait_outcome :=
| Value (v : item)
| Raises (e : exn)
| StillBlocked.

(** [self._getTask.result(1)]; [timeout] tells whether the second has
    elapsed with the handle not done.  The exceptions the handle raises
    are identified with the classes the handlers of [_get] name
    ([asyncio.CancelledError], [asyncio.TimeoutError]). *)
Definition result (timeout : bool) (t : task item) : wait_outcome :=
  match state t with
  | Finished v => Value v
  | Cancelled => Raises CancelledError
  | Failed e => Raises e
  | Pending | CancelRequested => if timeout then Raises TimeoutError else StillBlocked
  end.

(** The [try] block around [result(1)]: three handlers loop back, any
    other exception leaves [_get]. *)
Definition _get_handle (o : wait_outcome) : get_pc :=
  match o with
  | Value v => Returned v
  | Raises CancelledError => AtTest
  | Raises TimeoutError => AtTest
  | Raises SubscriptionClosed => AtTest
  | Raises e => Raised e
  | StillBlocked => Blocked
  end.

Definition _get_step (timeout : bool) (self : consumer item) (pc : get_pc)
  : consumer item * get_pc :=
  match pc with
  | AtTest => (self, _get_test self)
  | AtSubmit => (_get_submit self, Blocked)
  | Blocked =>
      match _getTask self with
      | Some t => (self, _get_handle (result timeout t))
      | None => (self, Blocked)
      end
  | Returned _ | Raised _ => (self, pc)
  end.

(** [putSubscription] and [close] take [_taskLock] around the
    inherited method; the [join] of [close] changes no attribute. *)
Definition putSubscription (subscription : pyobj) (self : consumer item) : consumer item :=
  BaseSubscriptionConsumer.putSubscription subscription self.

Definition close (self : consumer item) : consumer item :=
  BaseSubscriptionConsumer.close self.

(** A call of [_get] on the worker thread, under a schedule. *)
Inductive get_event :=
| Around (ev : env_event item)
| Worker (timeout : bool).

Definition get_config : Type := consumer item * world item * get_pc.

Definition get_step (ev : get_event) (c : get_config) : get_config :=
  let '(self, w, pc) := c in
  match ev with
  | Around e => let '(self, w) := env_step e self w in (self, w, pc)
  | Worker timeout => let '(self, pc) := _get_step timeout self pc in (self, w, pc)
  end.

Definition _get (evs : list get_event) (self : consumer item) (w : world item)
  : get_config :=
  foldl (fun c ev => get_step ev c) (self, w, AtTest) evs.

(** The worker thread running [_consumer]; [testQueue] receives the
    items, [None] standing for the end marker. *)
Inductive worker_pc :=
| NotStarted
| InGet (pc : get_pc)
| Exited (e : option exn).

Record threaded_consumer := ThreadedConsumer {
  base : consumer item;
  testQueue : list (option item);
  _consumerThread : worker_pc;
}.

Definition __init__ (directPutSubscriptionType : subscription_class) (w : world item)
  : threaded_consumer * world item :=
  let '(b, w) := BaseSubscriptionConsumer.__init__ directPutSubscriptionType false w in
  (ThreadedConsumer b [] NotStarted, w).

Definition _consumer (timeout : bool) (self : threaded_consumer) : threaded_consumer :=
  match _consumerThread self with
  | NotStarted => ThreadedConsumer (with_ready true (base self)) [] (InGet AtTest)
  | InGet pc =>
      let '(b, pc) := _get_step timeout (base self) pc in
      match pc with
      | Returned v => ThreadedConsumer b (testQueue self ++ [Some v]) (InGet AtTest)
      | Raised SubscriptionClosed => ThreadedConsumer b (testQueue self ++ [None]) (Exited None)
      | Raised e => ThreadedConsumer b (testQueue self) (Exited (Some e))
      | _ => ThreadedConsumer b (testQueue self) (InGet pc)
      end
  | Exited _ => self
  end.

(** The worker thread has not met a timeout it could not handle. *)
Definition timeout_free (pc : worker_pc) : Prop :=
  pc ≠ Exited (Some TimeoutError) ∧ pc ≠ InGet (Raised TimeoutError).

Definition step (ev : get_event) (self : threaded_consumer) (w : world item)
  : threaded_consumer * world item :=
  match ev with
  | Around e =>
      let '(b, w) := env_step e (base self) w in
      (ThreadedConsumer b (testQueue self) (_consumerThread self), w)
  | Worker timeout => (_consumer timeout self, w)
  end.

Definition run (evs : list get_event) (self : threaded_consumer) (w : world item)
  : threaded_consumer * world item :=
  foldl (fun s ev => step ev s.1 s.2) (self, w) evs.
End Threaded.
Arguments get_pc : clear implicits.
Arguments wait_outcome : clear implicits.
Arguments get_event : clear implicits.
Arguments get_config : clear implicits.
Arguments worker_pc : clear implicits.
Arguments threaded_consumer : clear implicits.
End ThreadedSubscriptionConsumer.

(** ** The plain subclasses *)

Module SubscriptionProducer.
Section Plain.
Context {item : Type}.

Definition put_nowait (element : item) (self : BaseSubscriptionProducer.registry)
    (w : world item) : world item :=
  BaseSubscriptionProducer._put_nowait element self w.
End Plain.
End SubscriptionProducer.

Module SubscriptionConsumer.
Section Plain.
Context {item : Type}.

Definition get (evs : list (BaseSubscriptionConsumer.event item))
    (self : BaseSubscriptionConsumer.consumer item) (w : world item)
  : BaseSubscriptionConsumer.config item :=
  BaseSubscriptionConsumer._get evs self w.
End Plain.
End SubscriptionConsumer.

(** ** Producer and consumer in one object *)

Module SubscriptionProducerConsumer.
Section Composite.
Context {item : Type}.
Import BaseSubscriptionProducer.

(** Both base classes act on one [self]: [_shouldClose] and [_ready]
    are the same two attributes for the consumer and the producer
    methods. *)
Record producer_consumer := ProducerConsumer {
  consumer_part : BaseSubscriptionConsumer.consumer item;
  producer_part : registry;
}.

Definition with_consumer (c : BaseSubscriptionConsumer.consumer item)
    (self : producer_consumer) : producer_consumer :=
  ProducerConsumer c (producer_part self).

#[global] Instance composite_self : Self producer_consumer := {|
  private := producer_part;
  with_private r self := ProducerConsumer (consumer_part self) r;
  get_shouldClose self := BaseSubscriptionConsumer._shouldClose (consumer_part self);
  set_shouldClose v self :=
    with_consumer (BaseSubscriptionConsumer.with_shouldClose v (consumer_part self)) self;
  get_ready self := BaseSubscriptionConsumer._ready (consumer_part self);
  set_ready v self :=
    with_consumer (BaseSubscriptionConsumer.with_ready v (consumer_part self)) self;
|}.

(** [BaseSubscriptionConsumer.__init__] and then
    [BaseSubscriptionProducer.__init__], which assigns the two shared
    attributes once more. *)
Definition __init__ (directPutSubscriptionType defaultSubscriptionType : subscription_class)
    (ready defaultAutosubscribe : bool) (w : world item) : producer_consumer * world item :=
  let '(c, w) := BaseSubscriptionConsumer.__init__ directPutSubscriptionType ready w in
  let r := Registry ∅ ∅ ∅ defaultSubscriptionType None in
  let self := ProducerConsumer c r in
  let self := set_shouldClose false self in
  let self := set_ready ready self in
  if defaultAutosubscribe then
    let '(r, w) := __defaultSubscribe (private self) w in (with_private r self, w)
  else (self, w).

Definition close (self : producer_consumer) : producer_consumer :=
  let self := with_consumer (BaseSubscriptionConsumer.close (consumer_part self)) self in
  BaseSubscriptionProducer.close self.

Inductive event :=
| Consume (ev : BaseSubscriptionConsumer.env_event item)
| Produce (c : call item)
| CloseCall.

Definition step (ev : event) (self : producer_consumer) (w : world item)
  : producer_consumer * world item :=
  match ev with
  | Consume BaseSubscriptionConsumer.Close => (close self, w)
  | Consume e =>
      let '(c, w) := BaseSubscriptionConsumer.env_step e (consumer_part self) w in
      (with_consumer c self, w)
  | Produce c => do_op (Call c) self w
  | CloseCall => (close self, w)
  end.

Definition run (evs : list event) (self : producer_consumer) (w : world item)
  : producer_consumer * world item :=
  foldl (fun s ev => step ev s.1 s.2) (self, w) evs.
End Composite.
Arguments producer_consumer : clear implicits.
Arguments event : clear implicits.
End SubscriptionProducerConsumer.

(** ** Sample objects

    A queue, a second queue, a synchronous callback and a coroutine
    function, a store in which they exist, a producer that has the first
    three kinds registered, and consumers reading the first queue. *)

Definition a_queue : pyobj := PyObj 0 true false.

Definition another_queue : pyobj := PyObj 1 true false.

Definition a_callback : pyobj := PyObj 2 false false.

Definition a_coroutine : pyobj := PyObj 3 false true.

Definition a_default_queue : pyobj := PyObj 4 true false.

Definition a_direct_queue : pyobj := PyObj 5 true false.

Definition a_world : world nat := World ∅ [] [] 6.

Definition a_registry : BaseSubscriptionProducer.registry :=
  BaseSubscriptionProducer.Registry {[a_queue]} {[a_callback]} {[a_coroutine]}
                                    asyncio_Queue None.

Definition a_registry_with_default : BaseSubscriptionProducer.registry :=
  BaseSubscriptionProducer.Registry {[a_default_queue]} ∅ ∅ asyncio_Queue
                                    (Some a_default_queue).

(** A consumer reading [a_queue], with a wait in flight. *)
Definition a_waiting_consumer : BaseSubscriptionConsumer.consumer nat :=
  BaseSubscriptionConsumer.Consumer
    asyncio_Queue a_direct_queue a_queue false
    (Some (BaseSubscriptionConsumer.Task a_queue BaseSubscriptionConsumer.Pending)) true.

(** A process-bridged producer whose close event is set. *)
Definition a_closed_process_producer : ProcessSubscriptionProducer.process_producer nat :=
  ProcessSubscriptionProducer.ProcessProducer
    a_registry false true [1; 2] [] ProcessSubscriptionProducer.Producing.


(** ** Further definitions *)

(** Broadcasting a list of items, one after the other. *)
Definition broadcast_all {item : Type} (xs : list item)
    (self : BaseSubscriptionProducer.registry) (w : world item) : world item :=
  foldl (fun w x => BaseSubscriptionProducer._put_nowait x self w) w xs.

(** An event in which only the scheduler acts: it runs the task or
    resumes the call of [_get]; nobody feeds a queue or calls a
    method. *)
Definition only_scheduler {item : Type} (ev : BaseSubscriptionConsumer.event item) : Prop :=
  ev = BaseSubscriptionConsumer.Env BaseSubscriptionConsumer.RunTask ∨
  ev = BaseSubscriptionConsumer.Resume.

(** A wait that can still take an item runs the [get] of the active
    subscription. *)
Definition waits_on_active {item : Type}
    (self : BaseSubscriptionConsumer.consumer item) : Prop :=
  ∀ t, BaseSubscriptionConsumer._getTask self = Some t →
       BaseSubscriptionConsumer.state t = BaseSubscriptionConsumer.Pending →
       BaseSubscriptionConsumer.awaited t = BaseSubscriptionConsumer._subscription self.

(** What every configuration of a call of [_get] satisfies: the wait
    is on the active subscription as long as it can take an item, a
    value returned is the result of the finished task, and the only
    exception raised is the terminal one, on a closed consumer. *)
Definition orderly {item : Type} (c : BaseSubscriptionConsumer.config item) : Prop :=
  waits_on_active c.1.1 ∧
  match c.2 with
  | BaseSubscriptionConsumer.Awaiting => True
  | BaseSubscriptionConsumer.Returned v =>
      ∃ src, BaseSubscriptionConsumer._getTask c.1.1 =
             Some (BaseSubscriptionConsumer.Task src (BaseSubscriptionConsumer.Finished v))
  | BaseSubscriptionConsumer.Raised e =>
      e = SubscriptionClosed ∧ BaseSubscriptionConsumer._shouldClose c.1.1 = true
  end.

(** ** Further sample objects *)

(** A store in which [a_queue] holds two items. *)
Definition a_fed_world : world nat := World {[a_queue := [7; 8]]} [] [] 6.

(** A consumer whose wait on [a_queue] has failed. *)
Definition a_failed_consumer : BaseSubscriptionConsumer.consumer nat :=
  BaseSubscriptionConsumer.Consumer
    asyncio_Queue a_direct_queue a_queue false
    (Some (BaseSubscriptionConsumer.Task a_queue
             (BaseSubscriptionConsumer.Failed (OtherError 0)))) true.

(** A thread-bridged consumer whose worker has not run yet. *)
Definition a_new_threaded_consumer : ThreadedSubscriptionConsumer.threaded_consumer nat :=
  ThreadedSubscriptionConsumer.ThreadedConsumer
    a_waiting_consumer [] ThreadedSubscriptionConsumer.NotStarted.

(** Thread-bridged producers: one whose worker runs, one whose worker
    has not run yet. *)
Definition a_running_threaded_producer : ThreadedSubscriptionProducer.threaded_producer nat :=
  ThreadedSubscriptionProducer.ThreadedProducer
    (BaseSubscriptionProducer.Producer a_registry false true) [] [] false
    ThreadedSubscriptionProducer.Running.

Definition a_new_threaded_producer : ThreadedSubscriptionProducer.threaded_producer nat :=
  ThreadedSubscriptionProducer.ThreadedProducer
    (BaseSubscriptionProducer.Producer a_registry false false) [] [] false
    ThreadedSubscriptionProducer.NotStarted.

(** A process-bridged producer at work. *)
Definition a_process_producer : ProcessSubscriptionProducer.process_producer nat :=
  ProcessSubscriptionProducer.ProcessProducer
    a_registry true false [] [] ProcessSubscriptionProducer.Producing.

Set Warnings "-clear-no-such-hyp".

(** * Properties *)

(** ** The shared store *)

Section WorldFacts.
Context {item : Type}.
Implicit Types (w : world item) (q s c : pyobj) (x : item).

Lemma contents_set_contents w q l q' :
  contents (set_contents q l w) q' = if decide (q = q') then l else contents w q'.
Proof.
  unfold contents, set_contents; simpl.
  case_decide as E; [subst; by rewrite lookup_insert_eq | by rewrite lookup_insert_ne].
Qed.

Lemma contents_queue_put_nowait w q x q' :
  contents (queue_put_nowait q x w) q' =
  if decide (q = q') then contents w q ++ [x] else contents w q'.
Proof. apply contents_set_contents. Qed.

Lemma contents_invoke w c x q : contents (invoke c x w) q = contents w q.
Proof. reflexivity. Qed.

Lemma contents_ensure_future w c x q : contents (ensure_future c x w) q = contents w q.
Proof. reflexivity. Qed.

Lemma contents_construct cls w q :
  contents (construct cls w).2 q =
  if decide ((construct cls w).1 = q) then [] else contents w q.
Proof.
  unfold contents, construct; simpl.
  case_decide as E; [subst; by rewrite lookup_insert_eq | by rewrite lookup_insert_ne].
Qed.

Lemma construct_fresh cls w q : allocated w q → (construct cls w).1 ≠ q.
Proof. unfold allocated; intros H <-; simpl in H; lia. Qed.

Lemma construct_allocated cls w : allocated (construct cls w).2 (construct cls w).1.
Proof. unfold allocated; simpl; lia. Qed.

Lemma construct_not_allocated cls w : ¬ allocated w (construct cls w).1.
Proof. unfold allocated; simpl; lia. Qed.

Lemma allocated_construct cls w q : allocated w q → allocated (construct cls w).2 q.
Proof. unfold allocated; simpl; lia. Qed.

(** The first loop of a broadcast: every queue of the list gets the item
    appended once, every other queue is untouched. *)
Lemma foldl_put_contents x (l : list pyobj) w q :
  NoDup l →
  contents (foldl (fun w s => queue_put_nowait s x w) w l) q =
  if decide (q ∈ l) then contents w q ++ [x] else contents w q.
Proof.
  intros Hnd; revert w; induction Hnd as [|s l Hs Hnd IH]; intros w; cbn [foldl].
  - case_decide; [set_solver | done].
  - rewrite IH, contents_queue_put_nowait.
    destruct (decide (s = q)) as [->|Hne], (decide (q ∈ l)) as [Hin|Hin].
    + done.
    + rewrite decide_True by apply list_elem_of_here. done.
    + rewrite decide_True by (by apply list_elem_of_further). done.
    + rewrite decide_False; [done|]. intros [?|?]%elem_of_cons; done.
Qed.

Lemma foldl_put_frame x (l : list pyobj) w :
  let w' := foldl (fun w s => queue_put_nowait s x w) w l in
  called w' = called w ∧ futures w' = futures w ∧ next_oid w' = next_oid w.
Proof.
  revert w; induction l as [|s l IH]; intros w; cbn [foldl]; [done|].
  destruct (IH (queue_put_nowait s x w)) as (E1 & E2 & E3). by rewrite E1, E2, E3.
Qed.

Lemma foldl_invoke x (l : list pyobj) w :
  let w' := foldl (fun w c => invoke c x w) w l in
  queues w' = queues w ∧ called w' = called w ++ ((fun c => (c, x)) <$> l) ∧
  futures w' = futures w ∧ next_oid w' = next_oid w.
Proof.
  revert w; induction l as [|c l IH]; intros w; simpl.
  - by rewrite app_nil_r.
  - destruct (IH (invoke c x w)) as (-> & -> & -> & ->); simpl.
    by rewrite <- app_assoc.
Qed.

Lemma foldl_ensure_future x (l : list pyobj) w :
  let w' := foldl (fun w c => ensure_future c x w) w l in
  queues w' = queues w ∧ called w' = called w ∧
  futures w' = futures w ++ ((fun c => (c, x)) <$> l) ∧ next_oid w' = next_oid w.
Proof.
  revert w; induction l as [|c l IH]; intros w; simpl.
  - by rewrite app_nil_r.
  - destruct (IH (ensure_future c x w)) as (-> & -> & -> & ->); simpl.
    by rewrite <- app_assoc.
Qed.

(** In a duplicate-free list of callbacks, each one is invoked once. *)
Lemma calls_of_app c (l1 l2 : list (pyobj * item)) :
  calls_of c (l1 ++ l2) = calls_of c l1 ++ calls_of c l2.
Proof. unfold calls_of. by rewrite filter_app, fmap_app. Qed.

Lemma calls_of_round c x (l : list pyobj) :
  NoDup l →
  calls_of c ((fun c => (c, x)) <$> l) = if decide (c ∈ l) then [x] else [].
Proof.
  induction 1 as [|d l Hd Hnd IH].
  - case_decide; [set_solver | done].
  - unfold calls_of in *. rewrite fmap_cons, filter_cons; cbn [fst].
    destruct (decide (d = c)) as [->|Hne].
    + rewrite fmap_cons; cbn [snd]. rewrite IH.
      rewrite decide_False by done. rewrite decide_True by apply list_elem_of_here. done.
    + rewrite IH.
      destruct (decide (c ∈ l)) as [Hin|Hin].
      * rewrite decide_True by (by apply list_elem_of_further). done.
      * rewrite decide_False; [done|]. intros [?|?]%elem_of_cons; done.
Qed.
End WorldFacts.

(** ** Producer core *)

Section ProducerFacts.
Context {item : Type}.
Import BaseSubscriptionProducer.
Implicit Types (w : world item) (q s c o d : pyobj) (x : item) (self : registry).

Lemma subscribe_eq arg self w :
  subscribe arg self w =
  match arg with
  | Some o => (o, add_to o self, w)
  | None =>
      let ow := construct (__defaultSubscriptionClass self) w in
      (ow.1, add_to ow.1 self, ow.2)
  end.
Proof.
  unfold subscribe, add_to. destruct arg as [o|]; cbn.
  - by destruct (has_put_nowait o), (iscoroutinefunction o).
  - by destruct (cls_has_put_nowait _), (cls_iscoroutinefunction _).
Qed.

Lemma add_to_default o self :
  __defaultSubscription (add_to o self) = __defaultSubscription self ∧
  __defaultSubscriptionClass (add_to o self) = __defaultSubscriptionClass self.
Proof. unfold add_to. by destruct (has_put_nowait o), (iscoroutinefunction o). Qed.

Lemma add_to_subscriptions o self :
  __subscriptions (add_to o self) =
  if has_put_nowait o then {[o]} ∪ __subscriptions self else __subscriptions self.
Proof. unfold add_to. by destruct (has_put_nowait o), (iscoroutinefunction o). Qed.

Lemma add_to_cocallbacks o self :
  __cocallbacks (add_to o self) =
  if has_put_nowait o then __cocallbacks self
  else if iscoroutinefunction o then {[o]} ∪ __cocallbacks self else __cocallbacks self.
Proof. unfold add_to. by destruct (has_put_nowait o), (iscoroutinefunction o). Qed.

Lemma add_to_callbacks o self :
  __callbacks (add_to o self) =
  if has_put_nowait o then __callbacks self
  else if iscoroutinefunction o then __callbacks self else {[o]} ∪ __callbacks self.
Proof. unfold add_to. by destruct (has_put_nowait o), (iscoroutinefunction o). Qed.

Lemma add_to_registered o self : registered (add_to o self) o.
Proof.
  unfold registered. rewrite add_to_subscriptions, add_to_callbacks, add_to_cocallbacks.
  destruct (has_put_nowait o), (iscoroutinefunction o); set_solver.
Qed.

Lemma add_to_idempotent o self : add_to o (add_to o self) = add_to o self.
Proof.
  unfold add_to.
  destruct (has_put_nowait o), (iscoroutinefunction o); cbn; f_equal; set_solver.
Qed.

Lemma add_to_classified o self : classified self → classified (add_to o self).
Proof.
  intros (H1 & H2 & H3). unfold classified.
  rewrite add_to_subscriptions, add_to_callbacks, add_to_cocallbacks.
  destruct (has_put_nowait o) eqn:E1, (iscoroutinefunction o) eqn:E2;
    (split; [|split]); intros o'; rewrite ?elem_of_union, ?elem_of_singleton;
    intros; destruct_or?; subst; auto.
Qed.

Lemma classified_at_most_one self : classified self → at_most_one_registry self.
Proof.
  intros (H1 & H2 & H3) o. repeat split; intros [Ha Hb].
  - apply H1 in Ha. apply H3 in Hb as [Hb _]. congruence.
  - apply H1 in Ha. apply H2 in Hb as [Hb _]. congruence.
  - apply H3 in Ha as [_ Ha]. apply H2 in Hb as [_ Hb]. congruence.
Qed.

(** The effect of [unsubscribe] with an argument, by the capability of
    the argument. *)
Lemma unsubscribe_given_eq o self :
  unsubscribe_given o self =
  if has_put_nowait o then
    if decide (o ∈ __subscriptions self) then
      Ok (Registry (__subscriptions self ∖ {[o]}) (__callbacks self) (__cocallbacks self)
                   (__defaultSubscriptionClass self) (__defaultSubscription self))
    else Raise (KeyError o)
  else if iscoroutinefunction o then
    if decide (o ∈ __cocallbacks self) then
      Ok (Registry (__subscriptions self) (__callbacks self) (__cocallbacks self ∖ {[o]})
                   (__defaultSubscriptionClass self) (__defaultSubscription self))
    else Raise (KeyError o)
  else
    if decide (o ∈ __callbacks self) then
      Ok (Registry (__subscriptions self) (__callbacks self ∖ {[o]}) (__cocallbacks self)
                   (__defaultSubscriptionClass self) (__defaultSubscription self))
    else Raise (KeyError o).
Proof.
  unfold unsubscribe_given, set_remove.
  destruct (has_put_nowait o), (iscoroutinefunction o); by case_decide.
Qed.

Lemma unsubscribe_given_unregistered o self :
  ¬ registered self o → unsubscribe_given o self = Raise (KeyError o).
Proof.
  unfold registered. intros Hn. rewrite unsubscribe_given_eq.
  destruct (has_put_nowait o), (iscoroutinefunction o); case_decide; tauto.
Qed.

Lemma unsubscribe_given_registered o self :
  classified self → registered self o →
  unsubscribe_given o self =
  Ok (Registry (__subscriptions self ∖ {[o]}) (__callbacks self ∖ {[o]})
               (__cocallbacks self ∖ {[o]})
               (__defaultSubscriptionClass self) (__defaultSubscription self)).
Proof.
  intros (H1 & H2 & H3) Hr. rewrite unsubscribe_given_eq.
  assert (Hs : has_put_nowait o = false → __subscriptions self ∖ {[o]} = __subscriptions self).
  { intros E. assert (o ∉ __subscriptions self) by (intros ?%H1; congruence). set_solver. }
  assert (Hc : (has_put_nowait o = true ∨ iscoroutinefunction o = false) →
               __cocallbacks self ∖ {[o]} = __cocallbacks self).
  { intros E. assert (o ∉ __cocallbacks self) by (intros [??]%H2; destruct E; congruence).
    set_solver. }
  assert (Hb : (has_put_nowait o = true ∨ iscoroutinefunction o = true) →
               __callbacks self ∖ {[o]} = __callbacks self).
  { intros E. assert (o ∉ __callbacks self) by (intros [??]%H3; destruct E; congruence).
    set_solver. }
  destruct Hr as [Hr|[Hr|Hr]].
  - pose proof (H1 _ Hr) as E. rewrite E. rewrite decide_True by done.
    rewrite Hc, Hb by auto. done.
  - pose proof (H3 _ Hr) as [E1 E2]. rewrite E1, E2. rewrite decide_True by done.
    rewrite Hs, Hc by auto. done.
  - pose proof (H2 _ Hr) as [E1 E2]. rewrite E1, E2. rewrite decide_True by done.
    rewrite Hs, Hb by auto. done.
Qed.

Lemma unsubscribe_given_classified o self self' :
  classified self → unsubscribe_given o self = Ok self' → classified self'.
Proof.
  intros (H1 & H2 & H3). rewrite unsubscribe_given_eq.
  destruct (has_put_nowait o), (iscoroutinefunction o); case_decide; intros [= <-];
    (split; [|split]); cbn; intros o'; rewrite ?elem_of_difference; intros; destruct_and?; auto.
Qed.

Lemma unsubscribe_given_default o self self' :
  unsubscribe_given o self = Ok self' →
  __defaultSubscription self' = __defaultSubscription self ∧
  __defaultSubscriptionClass self' = __defaultSubscriptionClass self.
Proof.
  rewrite unsubscribe_given_eq.
  destruct (has_put_nowait o), (iscoroutinefunction o); case_decide; by intros [= <-].
Qed.

(** Removing [o] leaves every other subscription registered. *)
Lemma unsubscribe_given_keeps o q self self' :
  o ≠ q → unsubscribe_given o self = Ok self' →
  q ∈ __subscriptions self → q ∈ __subscriptions self'.
Proof.
  intros Hne. rewrite unsubscribe_given_eq.
  destruct (has_put_nowait o), (iscoroutinefunction o); case_decide; intros [= <-]; cbn;
    set_solver.
Qed.

(** *** One broadcast *)

Lemma put_nowait_contents x self w q :
  contents (_put_nowait x self w) q =
  if decide (q ∈ __subscriptions self) then contents w q ++ [x] else contents w q.
Proof.
  unfold _put_nowait.
  set (w1 := foldl (fun w s => queue_put_nowait s x w) w (elements (__subscriptions self))).
  set (w2 := foldl (fun w c => invoke c x w) w1 (elements (__callbacks self))).
  destruct (foldl_ensure_future x (elements (__cocallbacks self)) w2) as (E3 & _).
  destruct (foldl_invoke x (elements (__callbacks self)) w1) as (E2 & _).
  fold w2 in E2.
  transitivity (contents w1 q).
  { unfold contents. by rewrite E3, E2. }
  unfold w1. rewrite foldl_put_contents by apply NoDup_elements.
  destruct (decide (q ∈ __subscriptions self)) as [Hin|Hin].
  - rewrite decide_True by (by apply elem_of_elements). done.
  - rewrite decide_False by (by rewrite elem_of_elements). done.
Qed.

Lemma put_nowait_called x self w :
  called (_put_nowait x self w) = called w ++ ((fun c => (c, x)) <$> elements (__callbacks self)).
Proof.
  unfold _put_nowait.
  set (w1 := foldl (fun w s => queue_put_nowait s x w) w (elements (__subscriptions self))).
  set (w2 := foldl (fun w c => invoke c x w) w1 (elements (__callbacks self))).
  destruct (foldl_ensure_future x (elements (__cocallbacks self)) w2) as (_ & E3 & _).
  destruct (foldl_invoke x (elements (__callbacks self)) w1) as (_ & E2 & _).
  destruct (foldl_put_frame x (elements (__subscriptions self)) w) as (E1 & _).
  fold w2 in E2. fold w1 in E1. by rewrite E3, E2, E1.
Qed.

Lemma put_nowait_futures x self w :
  futures (_put_nowait x self w) =
  futures w ++ ((fun c => (c, x)) <$> elements (__cocallbacks self)).
Proof.
  unfold _put_nowait.
  set (w1 := foldl (fun w s => queue_put_nowait s x w) w (elements (__subscriptions self))).
  set (w2 := foldl (fun w c => invoke c x w) w1 (elements (__callbacks self))).
  destruct (foldl_ensure_future x (elements (__cocallbacks self)) w2) as (_ & _ & E3 & _).
  destruct (foldl_invoke x (elements (__callbacks self)) w1) as (_ & _ & E2 & _).
  destruct (foldl_put_frame x (elements (__subscriptions self)) w) as (_ & E1 & _).
  fold w2 in E2. fold w1 in E1. by rewrite E3, E2, E1.
Qed.

Lemma put_nowait_next_oid x self w : next_oid (_put_nowait x self w) = next_oid w.
Proof.
  unfold _put_nowait.
  set (w1 := foldl (fun w s => queue_put_nowait s x w) w (elements (__subscriptions self))).
  set (w2 := foldl (fun w c => invoke c x w) w1 (elements (__callbacks self))).
  destruct (foldl_ensure_future x (elements (__cocallbacks self)) w2) as (_ & _ & _ & E3).
  destruct (foldl_invoke x (elements (__callbacks self)) w1) as (_ & _ & _ & E2).
  destruct (foldl_put_frame x (elements (__subscriptions self)) w) as (_ & _ & E1).
  fold w2 in E2. fold w1 in E1. by rewrite E3, E2, E1.
Qed.

Lemma put_nowait_calls_of x self w c :
  calls_of c (called (_put_nowait x self w)) =
  calls_of c (called w) ++ (if decide (c ∈ __callbacks self) then [x] else []).
Proof.
  rewrite put_nowait_called, calls_of_app, calls_of_round by apply NoDup_elements.
  f_equal. destruct (decide (c ∈ __callbacks self)) as [Hin|Hin].
  - rewrite decide_True by (by apply elem_of_elements). done.
  - rewrite decide_False by (by rewrite elem_of_elements). done.
Qed.

Lemma put_nowait_futures_of x self w c :
  calls_of c (futures (_put_nowait x self w)) =
  calls_of c (futures w) ++ (if decide (c ∈ __cocallbacks self) then [x] else []).
Proof.
  rewrite put_nowait_futures, calls_of_app, calls_of_round by apply NoDup_elements.
  f_equal. destruct (decide (c ∈ __cocallbacks self)) as [Hin|Hin].
  - rewrite decide_True by (by apply elem_of_elements). done.
  - rewrite decide_False by (by rewrite elem_of_elements). done.
Qed.

(** *** The default subscription *)

Lemma defaultSubscribe_eq self w :
  __defaultSubscribe self w =
  match __defaultSubscription self with
  | Some _ => (self, w)
  | None =>
      let ow := construct (__defaultSubscriptionClass self) w in
      let r := add_to ow.1 self in
      (Registry (__subscriptions r) (__callbacks r) (__cocallbacks r)
                (__defaultSubscriptionClass r) (Some ow.1), ow.2)
  end.
Proof.
  unfold __defaultSubscribe. destruct (__defaultSubscription self); [done|].
  by rewrite subscribe_eq.
Qed.

Lemma queue_get_eq d w :
  queue_get d w = (head (contents w d),
                   match contents w d with _ :: rest => set_contents d rest w | [] => w end).
Proof. unfold queue_get. by destruct (contents w d). Qed.

Lemma queue_get_contents d w q :
  contents (queue_get d w).2 q = if decide (d = q) then tail (contents w d) else contents w q.
Proof.
  rewrite queue_get_eq; cbn. destruct (contents w d) as [|x rest] eqn:E.
  - case_decide; [by subst; rewrite E | done].
  - by rewrite contents_set_contents.
Qed.

Lemma queue_get_next_oid d w : next_oid (queue_get d w).2 = next_oid w.
Proof. rewrite queue_get_eq; cbn. by destruct (contents w d). Qed.

Lemma get_some d self w :
  __defaultSubscription self = Some d →
  get self w = ((queue_get d w).1, self, (queue_get d w).2).
Proof.
  intros E. unfold get. rewrite defaultSubscribe_eq, E. rewrite E.
  by destruct (queue_get d w).
Qed.

Lemma get_none self w :
  __defaultSubscription self = None →
  let ow := construct (__defaultSubscriptionClass self) w in
  let r := add_to ow.1 self in
  get self w =
  (None, Registry (__subscriptions r) (__callbacks r) (__cocallbacks r)
                  (__defaultSubscriptionClass r) (Some ow.1), ow.2).
Proof.
  intros E. unfold get. rewrite defaultSubscribe_eq, E. cbn zeta. cbn [__defaultSubscription].
  unfold queue_get. rewrite contents_construct. by rewrite decide_True.
Qed.

(** *** Sequences of calls *)

Lemma do_calls_cons m ms self w :
  do_calls (m :: ms) self w = do_calls ms (do_call m self w).1 (do_call m self w).2.
Proof. unfold do_calls; cbn. by destruct (do_call m self w). Qed.

Lemma broadcasts_cons m (ms : list (call item)) :
  broadcasts (m :: ms) = broadcasts [m] ++ broadcasts ms.
Proof. unfold broadcasts. by destruct m. Qed.

Lemma got_cons m ms self w :
  got (m :: ms) self w = got [m] self w ++ got ms (do_call m self w).1 (do_call m self w).2.
Proof. cbn [got]. by rewrite app_nil_r. Qed.

Lemma do_call_classified m self w : classified self → classified (do_call m self w).1.
Proof.
  intros Hc. destruct m as [arg|arg| | |x]; cbn.
  - rewrite subscribe_eq. destruct arg; cbn; by apply add_to_classified.
  - destruct arg as [o|]; cbn.
    + destruct (unsubscribe_given o self) eqn:E; cbn; [|done].
      by eapply unsubscribe_given_classified.
    + destruct (__defaultSubscription self) as [d|]; [|done].
      destruct (unsubscribe_given d self) eqn:E; cbn; [|done].
      by eapply unsubscribe_given_classified in E.
  - repeat split; cbn; set_solver.
  - destruct (__defaultSubscription self) as [d|] eqn:E.
    + by rewrite (get_some d).
    + rewrite get_none by done. cbn.
      by apply (add_to_classified (construct (__defaultSubscriptionClass self) w).1) in Hc.
  - done.
Qed.

Lemma do_calls_classified ms self w : classified self → classified (do_calls ms self w).1.
Proof.
  revert self w; induction ms as [|m ms IH]; intros self w Hc; [done|].
  rewrite do_calls_cons. by apply IH, do_call_classified.
Qed.

(** A queue-like subscriber that is not the default subscription, across
    one call that keeps it. *)
Lemma do_call_subscriber q m self w :
  q ∈ __subscriptions self → allocated w q → __defaultSubscription self ≠ Some q →
  keeps q m →
  q ∈ __subscriptions (do_call m self w).1 ∧ allocated (do_call m self w).2 q ∧
  __defaultSubscription (do_call m self w).1 ≠ Some q ∧
  contents (do_call m self w).2 q = contents w q ++ broadcasts [m].
Proof.
  intros Hq Ha Hd Hk. destruct m as [arg|arg| | |x]; cbn.
  - rewrite subscribe_eq. destruct arg as [o|]; cbn.
    + rewrite add_to_subscriptions, (proj1 (add_to_default _ _)), app_nil_r.
      split_and!; [destruct (has_put_nowait o); set_solver|done..].
    + rewrite add_to_subscriptions, (proj1 (add_to_default _ _)), app_nil_r.
      split_and!; [destruct (cls_has_put_nowait _); set_solver| |done|].
      * unfold allocated in *; cbn; lia.
      * pose proof (construct_fresh (__defaultSubscriptionClass self) w q Ha) as Hf.
        pose proof (contents_construct (__defaultSubscriptionClass self) w q) as Hc.
        rewrite decide_False in Hc by done. exact Hc.
  - rewrite app_nil_r. destruct arg as [o|]; cbn in *.
    + destruct (unsubscribe_given o self) eqn:E; cbn; [|done].
      split_and!; [by eapply unsubscribe_given_keeps|done| |done].
      by rewrite (proj1 (unsubscribe_given_default _ _ _ E)).
    + destruct (__defaultSubscription self) as [d|] eqn:Ed; [|cbn; by rewrite Ed].
      destruct (unsubscribe_given d self) eqn:E; cbn; [|by rewrite Ed].
      split_and!; [|done..].
      eapply unsubscribe_given_keeps; [|done..]. congruence.
  - done.
  - rewrite app_nil_r. destruct (__defaultSubscription self) as [d|] eqn:Ed.
    + rewrite (get_some d) by done. cbn. rewrite Ed, queue_get_contents.
      rewrite decide_False by congruence.
      split_and!; try done. unfold allocated. by rewrite queue_get_next_oid.
    + rewrite get_none by done. cbn.
      pose proof (construct_fresh (__defaultSubscriptionClass self) w q Ha) as Hf.
      rewrite add_to_subscriptions. split_and!.
      * destruct (cls_has_put_nowait _); set_solver.
      * unfold allocated in *; cbn; lia.
      * cbn in Hf. congruence.
      * pose proof (contents_construct (__defaultSubscriptionClass self) w q) as Hc.
        rewrite decide_False in Hc by done. exact Hc.
  - rewrite put_nowait_contents, decide_True by done.
    split_and!; try done. unfold allocated. by rewrite put_nowait_next_oid.
Qed.

Lemma do_calls_subscriber q ms self w :
  q ∈ __subscriptions self → allocated w q → __defaultSubscription self ≠ Some q →
  Forall (keeps q) ms →
  q ∈ __subscriptions (do_calls ms self w).1 ∧
  contents (do_calls ms self w).2 q = contents w q ++ broadcasts ms.
Proof.
  revert self w; induction ms as [|m ms IH]; intros self w Hq Ha Hd Hk.
  - cbn. by rewrite app_nil_r.
  - apply Forall_cons in Hk as [Hc Hk].
    destruct (do_call_subscriber q m self w) as (H1 & H2 & H3 & H4); [done..|].
    rewrite do_calls_cons, broadcasts_cons.
    destruct (IH _ _ H1 H2 H3 Hk) as [H5 H6].
    split; [done|]. by rewrite H6, H4, app_assoc.
Qed.

(** The default subscription, across one call that keeps it. *)
Lemma do_call_default d m self w :
  __defaultSubscription self = Some d → d ∈ __subscriptions self → allocated w d →
  keeps d m → keeps_default m →
  __defaultSubscription (do_call m self w).1 = Some d ∧
  d ∈ __subscriptions (do_call m self w).1 ∧ allocated (do_call m self w).2 d ∧
  got [m] self w ++ contents (do_call m self w).2 d = contents w d ++ broadcasts [m].
Proof.
  intros Hd Hq Ha Hk Hkd. destruct m as [arg|arg| | |x]; cbn.
  - rewrite subscribe_eq. destruct arg as [o|]; cbn.
    + rewrite add_to_subscriptions, (proj1 (add_to_default _ _)), app_nil_r.
      split_and!; [done|destruct (has_put_nowait o); set_solver|done..].
    + rewrite add_to_subscriptions, (proj1 (add_to_default _ _)), app_nil_r.
      split_and!; [done|destruct (cls_has_put_nowait _); set_solver| |].
      * unfold allocated in *; cbn; lia.
      * pose proof (construct_fresh (__defaultSubscriptionClass self) w d Ha) as Hf.
        pose proof (contents_construct (__defaultSubscriptionClass self) w d) as Hc.
        rewrite decide_False in Hc by done. exact Hc.
  - rewrite app_nil_r. destruct arg as [o|]; cbn in *; [|done].
    destruct (unsubscribe_given o self) eqn:E; cbn; [|done].
    split_and!; [|by eapply unsubscribe_given_keeps|done..].
    by rewrite (proj1 (unsubscribe_given_default _ _ _ E)).
  - done.
  - rewrite (get_some d) by done. cbn. rewrite queue_get_contents, decide_True by done.
    rewrite app_nil_r. split_and!; try done.
    + unfold allocated. by rewrite queue_get_next_oid.
    + rewrite queue_get_eq, app_nil_r; cbn. by destruct (contents w d).
  - rewrite put_nowait_contents, decide_True by done.
    split_and!; try done. unfold allocated. by rewrite put_nowait_next_oid.
Qed.

Lemma do_calls_default d ms self w :
  __defaultSubscription self = Some d → d ∈ __subscriptions self → allocated w d →
  Forall (keeps d) ms → Forall keeps_default ms →
  __defaultSubscription (do_calls ms self w).1 = Some d ∧
  got ms self w ++ contents (do_calls ms self w).2 d = contents w d ++ broadcasts ms.
Proof.
  revert self w; induction ms as [|m ms IH]; intros self w Hd Hq Ha Hk Hkd.
  - cbn. by rewrite app_nil_r.
  - apply Forall_cons in Hk as [Hc Hk]. apply Forall_cons in Hkd as [Hcd Hkd].
    destruct (do_call_default d m self w) as (H1 & H2 & H3 & H4); [done..|].
    rewrite do_calls_cons, broadcasts_cons.
    destruct (IH _ _ H1 H2 H3 Hk Hkd) as [H5 H6].
    split; [done|].
    rewrite got_cons, <- app_assoc, H6. by rewrite !app_assoc, H4.
Qed.

(** A call other than [unsubscribe()] and [unsubscribeAll()] leaves the
    reference to the default subscription in place. *)
Lemma do_call_keeps_default d m self w :
  __defaultSubscription self = Some d → keeps_default m →
  __defaultSubscription (do_call m self w).1 = Some d.
Proof.
  intros Hd Hk. destruct m as [arg|arg| | |x]; cbn.
  - rewrite subscribe_eq. destruct arg; cbn; by rewrite (proj1 (add_to_default _ _)).
  - destruct arg as [o|]; [|done]. cbn.
    destruct (unsubscribe_given o self) eqn:E; cbn; [|done].
    by rewrite (proj1 (unsubscribe_given_default _ _ _ E)).
  - done.
  - by rewrite (get_some d).
  - done.
Qed.

Lemma do_calls_keeps_default d ms self w :
  __defaultSubscription self = Some d → Forall keeps_default ms →
  __defaultSubscription (do_calls ms self w).1 = Some d.
Proof.
  revert self w; induction ms as [|m ms IH]; intros self w Hd Hk; [done|].
  apply Forall_cons in Hk as [Hc Hk]. rewrite do_calls_cons.
  apply IH; [by apply do_call_keeps_default | done].
Qed.

Lemma init_classified cls auto rdy w :
  classified (attrs (BaseSubscriptionProducer.__init__ cls auto rdy w).1).
Proof.
  unfold BaseSubscriptionProducer.__init__.
  assert (H0 : classified (Registry ∅ ∅ ∅ cls None)) by (repeat split; cbn; set_solver).
  destruct auto; [|done].
  rewrite defaultSubscribe_eq; cbn.
  by apply (add_to_classified (construct cls w).1) in H0.
Qed.

Lemma unsubscribe_default_eq d self :
  __defaultSubscription self = Some d → classified self → registered self d →
  unsubscribe None self =
  Ok (Registry (__subscriptions self ∖ {[d]}) (__callbacks self ∖ {[d]})
               (__cocallbacks self ∖ {[d]}) (__defaultSubscriptionClass self) None).
Proof.
  intros Hd Hc Hr. unfold unsubscribe. rewrite Hd.
  by rewrite unsubscribe_given_registered.
Qed.

Lemma add_to_registered_mono o d self : registered self d → registered (add_to o self) d.
Proof.
  unfold registered. rewrite add_to_subscriptions, add_to_callbacks, add_to_cocallbacks.
  destruct (has_put_nowait o), (iscoroutinefunction o); set_solver.
Qed.

Lemma unsubscribe_given_registered_other o d self self' :
  o ≠ d → unsubscribe_given o self = Ok self' → registered self d → registered self' d.
Proof.
  intros Hne. rewrite unsubscribe_given_eq. unfold registered.
  destruct (has_put_nowait o), (iscoroutinefunction o); case_decide; intros [= <-]; cbn;
    set_solver.
Qed.

Lemma do_call_next_oid m self w : next_oid w ≤ next_oid (do_call m self w).2.
Proof.
  destruct m as [arg|arg| | |x]; cbn.
  - rewrite subscribe_eq. destruct arg; cbn; lia.
  - by destruct (unsubscribe arg self).
  - done.
  - destruct (__defaultSubscription self) as [d|] eqn:E.
    + rewrite (get_some d) by done. cbn. by rewrite queue_get_next_oid.
    + rewrite get_none by done. cbn. lia.
  - by rewrite put_nowait_next_oid.
Qed.

(** The calls keep the producer sound, as long as the default
    subscription is not passed to [unsubscribe]. *)
Lemma do_call_sound m self w :
  sound self w → default_private [m] self w → sound (do_call m self w).1 (do_call m self w).2.
Proof.
  intros [Hc Hd] [Hp _]. split; [by apply do_call_classified|].
  intros d E.
  assert (Hal : ∀ d, allocated w d → allocated (do_call m self w).2 d).
  { intros d0. unfold allocated. pose proof (do_call_next_oid m self w). lia. }
  destruct m as [arg|arg| | |x]; cbn in *.
  - rewrite subscribe_eq in *. destruct arg as [o|]; cbn in *;
      rewrite (proj1 (add_to_default _ _)) in E; destruct (Hd d E) as [H1 H2];
      (split; [by apply add_to_registered_mono|auto]).
  - destruct arg as [o|]; cbn in *.
    + destruct (unsubscribe_given o self) eqn:Eu; cbn in *; [|by apply Hd].
      rewrite (proj1 (unsubscribe_given_default _ _ _ Eu)) in E.
      destruct (Hd d E) as [H1 H2]. split; [|done].
      eapply unsubscribe_given_registered_other; [|done..]. congruence.
    + destruct (__defaultSubscription self) as [d0|] eqn:E0; cbn in *; [|congruence].
      destruct (unsubscribe_given d0 self) eqn:Eu; cbn in *; [done|].
      rewrite E0 in E. apply Hd. congruence.
  - done.
  - destruct (__defaultSubscription self) as [d0|] eqn:E0.
    + rewrite (get_some d0) in * by done. cbn in *. rewrite E0 in E.
      destruct (Hd d E) as [H1 H2]. auto.
    + rewrite get_none in * by done. cbn in *. injection E as <-.
      split; [apply add_to_registered|apply construct_allocated].
  - destruct (Hd d E) as [H1 H2]. auto.
Qed.

Lemma do_calls_sound ms self w :
  sound self w → default_private ms self w → sound (do_calls ms self w).1 (do_calls ms self w).2.
Proof.
  revert self w; induction ms as [|m ms IH]; intros self w Hs Hp; [done|].
  destruct Hp as [Hp1 Hp2]. rewrite do_calls_cons.
  apply IH; [|done]. apply do_call_sound; [done|]. by split.
Qed.

Lemma init_sound cls auto rdy w :
  sound (attrs (BaseSubscriptionProducer.__init__ cls auto rdy w).1)
        (BaseSubscriptionProducer.__init__ cls auto rdy w).2.
Proof.
  split; [apply init_classified|].
  unfold BaseSubscriptionProducer.__init__. destruct auto; [|done].
  rewrite defaultSubscribe_eq; cbn. intros d [= <-].
  split; [apply add_to_registered|apply construct_allocated].
Qed.

(** C1: one broadcast appends the item to the buffer of every registered
    queue-like subscription and to no other buffer, calls every
    registered synchronous callback with it, once, before it returns, and
    hands one invocation per registered asynchronous callback to
    [ensure_future]; over any sequence of calls that keeps a queue-like
    subscriber registered, its buffer grows by exactly the items
    broadcast, in the order broadcast. *)
Theorem put_nowait_reaches_every_subscriber x self w :
  (∀ q, contents (_put_nowait x self w) q =
        if decide (q ∈ __subscriptions self) then contents w q ++ [x] else contents w q) ∧
  called (_put_nowait x self w) =
    called w ++ ((fun c => (c, x)) <$> elements (__callbacks self)) ∧
  (∀ c, calls_of c (called (_put_nowait x self w)) =
        calls_of c (called w) ++ (if decide (c ∈ __callbacks self) then [x] else [])) ∧
  futures (_put_nowait x self w) =
    futures w ++ ((fun c => (c, x)) <$> elements (__cocallbacks self)) ∧
  (∀ c, calls_of c (futures (_put_nowait x self w)) =
        calls_of c (futures w) ++ (if decide (c ∈ __cocallbacks self) then [x] else [])) ∧
  (∀ q ms, q ∈ __subscriptions self → allocated w q →
           __defaultSubscription self ≠ Some q → Forall (keeps q) ms →
           q ∈ __subscriptions (do_calls ms self w).1 ∧
           contents (do_calls ms self w).2 q = contents w q ++ broadcasts ms).
Proof.
  split_and!.
  - apply put_nowait_contents.
  - apply put_nowait_called.
  - apply put_nowait_calls_of.
  - apply put_nowait_futures.
  - apply put_nowait_futures_of.
  - intros q ms. apply do_calls_subscriber.
Qed.

(** C5: [subscribe] returns its argument, or the object it constructs
    when the argument is omitted; it adds that object to the set its
    capabilities select (a callable [put_nowait]: the subscriptions; else
    a coroutine function: the asynchronous callbacks; else: the
    synchronous callbacks) and leaves the two other sets as they were;
    subscribing the object again changes nothing; and whatever calls are
    made on a new producer, no object is in two of the sets. *)
Theorem subscribe_classifies_once (arg : option pyobj) self w :
  let o := match arg with
           | Some s => s
           | None => (construct (__defaultSubscriptionClass self) w).1
           end in
  let r := subscribe arg self w in
  r.1.1 = o ∧
  (if has_put_nowait o then
     __subscriptions r.1.2 = {[o]} ∪ __subscriptions self ∧
     __cocallbacks r.1.2 = __cocallbacks self ∧ __callbacks r.1.2 = __callbacks self
   else if iscoroutinefunction o then
     __subscriptions r.1.2 = __subscriptions self ∧
     __cocallbacks r.1.2 = {[o]} ∪ __cocallbacks self ∧ __callbacks r.1.2 = __callbacks self
   else
     __subscriptions r.1.2 = __subscriptions self ∧
     __cocallbacks r.1.2 = __cocallbacks self ∧
     __callbacks r.1.2 = {[o]} ∪ __callbacks self) ∧
  __defaultSubscription r.1.2 = __defaultSubscription self ∧
  subscribe (Some o) r.1.2 r.2 = (o, r.1.2, r.2) ∧
  (∀ cls auto rdy w0 (ms : list (call item)),
     at_most_one_registry
       (do_calls ms (attrs (BaseSubscriptionProducer.__init__ cls auto rdy w0).1)
                    (BaseSubscriptionProducer.__init__ cls auto rdy w0).2).1).
Proof.
  cbn zeta. rewrite subscribe_eq.
  set (o := match arg with Some s => s | None => _ end).
  assert (E : (match arg with
               | Some o => (o, add_to o self, w)
               | None =>
                   let ow := construct (__defaultSubscriptionClass self) w in
                   (ow.1, add_to ow.1 self, ow.2)
               end).1 = (o, add_to o self)) by (by destruct arg).
  rewrite E. cbn [fst snd]. split_and!.
  - done.
  - rewrite add_to_subscriptions, add_to_cocallbacks, add_to_callbacks.
    by destruct (has_put_nowait o), (iscoroutinefunction o).
  - apply add_to_default.
  - rewrite subscribe_eq. by rewrite add_to_idempotent.
  - intros cls auto rdy w0 ms.
    apply classified_at_most_one, do_calls_classified, init_classified.
Qed.

(** C6: with an argument, [unsubscribe] removes a registered object from
    the registries (the default subscription reference is not touched)
    and raises [KeyError] for an object that is in none of them; without
    argument it changes nothing when there is no default subscription,
    and otherwise removes the default subscription and forgets it; in
    particular it does so after any calls on a new producer that do not
    pass the default subscription, which is never handed out, to
    [unsubscribe]. *)
Theorem unsubscribe_removes_or_raises self :
  (∀ o, classified self → registered self o →
        unsubscribe (Some o) self =
        Ok (Registry (__subscriptions self ∖ {[o]}) (__callbacks self ∖ {[o]})
                     (__cocallbacks self ∖ {[o]}) (__defaultSubscriptionClass self)
                     (__defaultSubscription self))) ∧
  (∀ o, ¬ registered self o → unsubscribe (Some o) self = Raise (KeyError o)) ∧
  (__defaultSubscription self = None → unsubscribe None self = Ok self) ∧
  (∀ d, __defaultSubscription self = Some d → classified self → registered self d →
        unsubscribe None self =
        Ok (Registry (__subscriptions self ∖ {[d]}) (__callbacks self ∖ {[d]})
                     (__cocallbacks self ∖ {[d]}) (__defaultSubscriptionClass self) None)) ∧
  (∀ cls auto rdy w0 (ms : list (call item)) d,
     let p := BaseSubscriptionProducer.__init__ cls auto rdy w0 in
     let s := (do_calls ms (attrs p.1) p.2).1 in
     default_private ms (attrs p.1) p.2 → __defaultSubscription s = Some d →
     unsubscribe None s =
     Ok (Registry (__subscriptions s ∖ {[d]}) (__callbacks s ∖ {[d]})
                  (__cocallbacks s ∖ {[d]}) (__defaultSubscriptionClass s) None)).
Proof.
  split_and!.
  - intros o. apply unsubscribe_given_registered.
  - intros o. apply unsubscribe_given_unregistered.
  - intros E. unfold unsubscribe. by rewrite E.
  - intros d. apply unsubscribe_default_eq.
  - intros cls auto rdy w0 ms d p s Hp Hd.
    destruct (do_calls_sound ms (attrs p.1) p.2) as [Hc Hr]; [apply init_sound|done|].
    apply unsubscribe_default_eq; [done..|]. by apply Hr.
Qed.

(** C8: the first [get] constructs the default subscription, a new
    object with an empty buffer, and registers it; a later [get] finds
    it, creates nothing and reads from it; no call other than
    [unsubscribe()] and [unsubscribeAll()] replaces it, and the items the
    [get] calls return followed by those still buffered are the items
    buffered at the start followed by those broadcast since; after
    [unsubscribe()] the next [get] constructs another object, whose
    buffer is empty whatever the old one still held, and from then on
    the [get] calls return items broadcast after that point only. *)
Theorem get_reuses_default_subscription self w :
  (__defaultSubscription self = None →
   ∃ d self' w',
     get self w = (None, self', w') ∧ d = (construct (__defaultSubscriptionClass self) w).1 ∧
     __defaultSubscription self' = Some d ∧ registered self' d ∧
     ¬ allocated w d ∧ allocated w' d ∧ contents w' d = []) ∧
  (∀ d, __defaultSubscription self = Some d →
        get self w = (head (contents w d), self, (queue_get d w).2) ∧
        contents (queue_get d w).2 d = tail (contents w d) ∧
        next_oid (queue_get d w).2 = next_oid w) ∧
  (∀ d ms, __defaultSubscription self = Some d → Forall keeps_default ms →
           __defaultSubscription (do_calls ms self w).1 = Some d) ∧
  (∀ d ms, __defaultSubscription self = Some d → d ∈ __subscriptions self →
           allocated w d → Forall (keeps d) ms → Forall keeps_default ms →
           got ms self w ++ contents (do_calls ms self w).2 d =
           contents w d ++ broadcasts ms) ∧
  (∀ d, __defaultSubscription self = Some d → classified self → registered self d →
        allocated w d →
        ∃ self1 d' self2 w2,
          unsubscribe None self = Ok self1 ∧ __defaultSubscription self1 = None ∧
          ¬ registered self1 d ∧
          get self1 w = (None, self2, w2) ∧ __defaultSubscription self2 = Some d' ∧
          d' ≠ d ∧ ¬ allocated w d' ∧
          contents w2 d' = [] ∧ contents w2 d = contents w d ∧
          (cls_has_put_nowait (__defaultSubscriptionClass self) = true →
           ∀ ms, Forall (keeps d') ms → Forall keeps_default ms →
                 __defaultSubscription (do_calls ms self2 w2).1 = Some d' ∧
                 got ms self2 w2 ++ contents (do_calls ms self2 w2).2 d' = broadcasts ms)).
Proof.
  split_and!.
  - intros E. eexists _, _, _. split; [by apply get_none|]. cbn.
    split_and!; [done..|apply add_to_registered| | |].
    + apply construct_not_allocated.
    + apply construct_allocated.
    + unfold contents; cbn. by rewrite lookup_insert_eq.
  - intros d E. rewrite (get_some d) by done. rewrite queue_get_contents, decide_True by done.
    rewrite queue_get_next_oid. split_and!; try done. by rewrite queue_get_eq.
  - intros d ms. apply do_calls_keeps_default.
  - intros d ms Hd Hq Ha Hk Hkd. by apply do_calls_default.
  - intros d Hd Hc Hr Ha.
    set (self1 := Registry (__subscriptions self ∖ {[d]}) (__callbacks self ∖ {[d]})
                           (__cocallbacks self ∖ {[d]}) (__defaultSubscriptionClass self) None).
    set (d' := (construct (__defaultSubscriptionClass self1) w).1).
    set (w2 := (construct (__defaultSubscriptionClass self1) w).2).
    set (r := add_to d' self1).
    exists self1, d',
      (Registry (__subscriptions r) (__callbacks r) (__cocallbacks r)
                (__defaultSubscriptionClass r) (Some d')), w2.
    assert (Hne : d' ≠ d) by (by apply construct_fresh).
    split_and!.
    + by apply unsubscribe_default_eq.
    + done.
    + unfold registered, self1; cbn. set_solver.
    + by apply get_none.
    + done.
    + done.
    + apply construct_not_allocated.
    + unfold w2, d'. rewrite contents_construct. by rewrite decide_True.
    + unfold w2. rewrite contents_construct. by rewrite decide_False.
    + intros Hcls ms Hk Hkd.
      assert (Hin : d' ∈ __subscriptions r).
      { unfold r. rewrite add_to_subscriptions.
        change (has_put_nowait d') with (cls_has_put_nowait (__defaultSubscriptionClass self)).
        rewrite Hcls. set_solver. }
      destruct (do_calls_default d' ms
                  (Registry (__subscriptions r) (__callbacks r) (__cocallbacks r)
                            (__defaultSubscriptionClass r) (Some d')) w2)
        as [H1 H2]; try done.
      { apply construct_allocated. }
      split; [done|]. rewrite H2.
      unfold w2, d'. rewrite contents_construct. by rewrite decide_True.
Qed.
End ProducerFacts.

(** ** Consumer core *)

Section ConsumerFacts.
Context {item : Type}.
Import BaseSubscriptionConsumer.
Implicit Types (w : world item) (self : consumer item) (t : task item)
         (st : status item) (c : config item) (q s old new : pyobj) (x v : item).

Lemma cancel_done t : done t = true → cancel t = t.
Proof. unfold cancel. by intros ->. Qed.

Lemma cancel_pending t : done t = false → cancel t = Task (awaited t) CancelRequested.
Proof. unfold cancel. by intros ->. Qed.

Lemma cancel_cancel t : cancel (cancel t) = cancel t.
Proof. by destruct t as [a []]. Qed.

Lemma cancel_getTask_eq self :
  cancel_getTask self = with_getTask (cancel <$> _getTask self) self.
Proof.
  unfold cancel_getTask. destruct self as [ty d s sc [t|] r]; cbn; [|done].
  destruct (done t) eqn:E; cbn; [|done]. by rewrite cancel_done.
Qed.

Lemma putSubscription_same self : putSubscription (_subscription self) self = self.
Proof. unfold putSubscription. by rewrite decide_True. Qed.

Lemma putSubscription_other new self :
  new ≠ _subscription self →
  putSubscription new self = with_getTask (cancel <$> _getTask self) (with_subscription new self).
Proof.
  intros Hne. unfold putSubscription. rewrite decide_False by done.
  by rewrite cancel_getTask_eq.
Qed.

(** Whatever it is given, [putSubscription] leaves that subscription
    active and the flags alone, and never un-cancels or starts a wait. *)
Lemma putSubscription_fields new self :
  _subscription (putSubscription new self) = new ∧
  __directPutSubscription (putSubscription new self) = __directPutSubscription self ∧
  __directPutSubscriptionType (putSubscription new self) = __directPutSubscriptionType self ∧
  _shouldClose (putSubscription new self) = _shouldClose self ∧
  _ready (putSubscription new self) = _ready self ∧
  (_getTask (putSubscription new self) = _getTask self ∨
   _getTask (putSubscription new self) = cancel <$> _getTask self).
Proof.
  destruct (decide (new = _subscription self)) as [->|Hne].
  - rewrite putSubscription_same. auto 10.
  - rewrite putSubscription_other by done. cbn. auto 10.
Qed.

Lemma stop_fields self w :
  let q := (construct (__directPutSubscriptionType self) w).1 in
  _subscription (stop self w).1 = q ∧
  __directPutSubscription (stop self w).1 = q ∧
  __directPutSubscriptionType (stop self w).1 = __directPutSubscriptionType self ∧
  _shouldClose (stop self w).1 = _shouldClose self ∧
  _ready (stop self w).1 = _ready self ∧
  (_getTask (stop self w).1 = _getTask self ∨
   _getTask (stop self w).1 = cancel <$> _getTask self) ∧
  (stop self w).2 = (construct (__directPutSubscriptionType self) w).2.
Proof.
  unfold stop; cbn.
  pose proof (putSubscription_fields
                (PyObj (next_oid w) (cls_has_put_nowait (__directPutSubscriptionType self))
                       (cls_iscoroutinefunction (__directPutSubscriptionType self)))
                (with_directPutSubscription
                   (PyObj (next_oid w) (cls_has_put_nowait (__directPutSubscriptionType self))
                          (cls_iscoroutinefunction (__directPutSubscriptionType self))) self))
    as (H1 & H2 & H3 & H4 & H5 & H6).
  cbn in *. auto 10.
Qed.

Lemma put_nowait_eq x self w :
  put_nowait x self w =
  if decide (_subscription self = __directPutSubscription self)
  then (self, queue_put_nowait (__directPutSubscription self) x w)
  else ((stop self w).1,
        queue_put_nowait (__directPutSubscription (stop self w).1) x (stop self w).2).
Proof.
  unfold put_nowait. destruct (decide (_subscription self = __directPutSubscription self)).
  - by rewrite decide_False by tauto.
  - rewrite decide_True by done. by destruct (stop self w).
Qed.

Lemma subscription_direct self :
  _subscription self = __directPutSubscription self → subscription self = None.
Proof. intros E. unfold subscription. by rewrite decide_True. Qed.

Lemma subscription_external self :
  _subscription self ≠ __directPutSubscription self →
  subscription self = Some (_subscription self).
Proof. intros E. unfold subscription. by rewrite decide_False. Qed.

(** C4: with an external subscription active, [put_nowait] constructs a
    new direct-feed queue, makes it the active subscription (so that the
    [subscription] property reads [None]) and enqueues the item into it,
    leaving every other buffer as it was; with the direct-feed queue
    active, it only appends the item to that queue. *)
Theorem put_nowait_detaches_then_enqueues x self w :
  (_subscription self ≠ __directPutSubscription self →
   let q := (construct (__directPutSubscriptionType self) w).1 in
   let r := put_nowait x self w in
   ¬ allocated w q ∧
   __directPutSubscription r.1 = q ∧ _subscription r.1 = q ∧ subscription r.1 = None ∧
   _shouldClose r.1 = _shouldClose self ∧ _ready r.1 = _ready self ∧
   contents r.2 q = [x] ∧ (∀ q', q' ≠ q → contents r.2 q' = contents w q')) ∧
  (_subscription self = __directPutSubscription self →
   let r := put_nowait x self w in
   r.1 = self ∧ subscription r.1 = None ∧
   contents r.2 (__directPutSubscription self) =
     contents w (__directPutSubscription self) ++ [x] ∧
   (∀ q', q' ≠ __directPutSubscription self → contents r.2 q' = contents w q')).
Proof.
  split.
  - intros Hne q r. unfold r. rewrite put_nowait_eq, decide_False by done.
    destruct (stop_fields self w) as (H1 & H2 & H3 & H4 & H5 & H6 & H7).
    cbn [fst snd]. rewrite H2, H7. fold q.
    split_and!; try done.
    + apply construct_not_allocated.
    + apply subscription_direct. by rewrite H1, H2.
    + rewrite contents_queue_put_nowait, decide_True by done.
      unfold q. rewrite contents_construct. by rewrite decide_True.
    + intros q' Hq'. rewrite contents_queue_put_nowait, decide_False by done.
      rewrite contents_construct. by rewrite decide_False.
  - intros E r. unfold r. rewrite put_nowait_eq, decide_True by done. cbn [fst snd].
    split_and!; [done|by apply subscription_direct| |].
    + by rewrite contents_queue_put_nowait, decide_True.
    + intros q' Hq'. by rewrite contents_queue_put_nowait, decide_False.
Qed.

(** *** Closing *)

Lemma close_eq self :
  close self =
  Consumer (__directPutSubscriptionType self) (__directPutSubscription self)
           (_subscription self) true (cancel <$> _getTask self) false.
Proof. unfold close. by rewrite cancel_getTask_eq. Qed.

Lemma close_idempotent self : close (close self) = close self.
Proof.
  rewrite !close_eq; cbn. f_equal.
  destruct (_getTask self) as [t|]; cbn; [|done]. by rewrite cancel_cancel.
Qed.

Lemma close_closed self : closed (close self).
Proof.
  rewrite close_eq. split_and!; [done..|]. cbn. intros t.
  destruct (_getTask self) as [[a []]|]; cbn; by intros [= <-].
Qed.

Lemma closed_close self : closed self → close self = self.
Proof.
  intros (H1 & H2 & H3). rewrite close_eq. destruct self as [ty d s sc t r]; cbn in *.
  subst. f_equal. destruct t as [[a st]|]; cbn; [|done].
  specialize (H3 _ eq_refl). cbn in H3. by destruct st.
Qed.

Lemma closed_get_loop self : closed self → _get_loop self = (self, Raised SubscriptionClosed).
Proof. intros (H1 & _). unfold _get_loop. by rewrite H1. Qed.

Lemma cancel_not_pending t : state (cancel t) ≠ Pending.
Proof. by destruct t as [a []]. Qed.

Lemma closed_putSubscription new self : closed self → closed (putSubscription new self).
Proof.
  intros (H1 & H2 & H3).
  destruct (putSubscription_fields new self) as (_ & _ & _ & E1 & E2 & E3).
  split_and!; [congruence..|]. intros t Ht.
  destruct E3 as [E3|E3]; rewrite E3 in Ht; [by apply H3|].
  destruct (_getTask self); simplify_eq/=. apply cancel_not_pending.
Qed.

Lemma closed_stop self w : closed self → closed (stop self w).1.
Proof.
  intros (H1 & H2 & H3).
  destruct (stop_fields self w) as (_ & _ & _ & E1 & E2 & E3 & _).
  split_and!; [congruence..|]. intros t Ht.
  destruct E3 as [E3|E3]; rewrite E3 in Ht; [by apply H3|].
  destruct (_getTask self); simplify_eq/=. apply cancel_not_pending.
Qed.

Lemma closed_env_step ev self w : closed self → closed (env_step ev self w).1.
Proof.
  intros Hc. destruct ev as [|e|s|x| | |q x]; cbn.
  - pose proof Hc as (H1 & H2 & H3).
    destruct (_getTask self) as [t|] eqn:E; [|done].
    destruct (run_task t w) as [t' w'] eqn:Er. cbn. split_and!; [done..|].
    intros ? [= <-]. specialize (H3 _ eq_refl). unfold run_task in Er.
    destruct t as [a []]; cbn in *; simplify_eq/=; done.
  - pose proof Hc as (H1 & H2 & H3).
    destruct (_getTask self) as [t|] eqn:E; [|done].
    cbn. split_and!; [done..|].
    intros ? [= <-]. specialize (H3 _ eq_refl).
    destruct t as [a []]; cbn in *; done.
  - by apply closed_putSubscription.
  - rewrite put_nowait_eq. case_decide; [done|]. by apply closed_stop.
  - by apply closed_stop.
  - apply close_closed.
  - done.
Qed.

Lemma closed_step ev c : closed c.1.1 → closed (step ev c).1.1.
Proof.
  destruct c as [[self w] st]. cbn. intros Hc. destruct ev as [e|].
  - pose proof (closed_env_step e self w Hc). by destruct (env_step e self w).
  - destruct st; try done. unfold _get_resume.
    destruct (_getTask self) as [[a []]|]; cbn; try done;
      try (by rewrite closed_get_loop); destruct e; by rewrite closed_get_loop.
Qed.

Lemma closed_run evs c : closed c.1.1 → closed (run evs c).1.1.
Proof.
  revert c; induction evs as [|ev evs IH]; intros c Hc; [done|].
  cbn. by apply IH, closed_step.
Qed.

(** A call that has raised or returned stays so. *)
Lemma run_raised evs self w e :
  ∃ self' w', run evs (self, w, Raised e) = (self', w', Raised e).
Proof.
  revert self w; induction evs as [|ev evs IH]; intros self w; [by eexists _, _|].
  cbn. destruct ev as [ev|]; [|apply IH].
  destruct (env_step ev self w) as [self' w']. apply IH.
Qed.

(** The scheduler delivering a cancellation takes nothing from the
    store. *)
Lemma run_task_closed self w : closed self → (env_step RunTask self w).2 = w.
Proof.
  intros (_ & _ & H3). cbn. destruct (_getTask self) as [t|]; [|done].
  specialize (H3 _ eq_refl). unfold run_task. by destruct t as [a []].
Qed.

(** C10: [close] leaves the active subscription and the direct-feed
    queue references as they were, so the [subscription] property reads
    what it read before; it sets the shutdown flag, clears readiness and
    cancels the wait in flight; the store, hence every buffer, is
    untouched, also when the cancellation is delivered. *)
Theorem close_keeps_active_subscription self w :
  _subscription (close self) = _subscription self ∧
  __directPutSubscription (close self) = __directPutSubscription self ∧
  subscription (close self) = subscription self ∧
  _shouldClose (close self) = true ∧ _ready (close self) = false ∧
  _getTask (close self) = cancel <$> _getTask self ∧
  env_step Close self w = (close self, w) ∧
  (env_step RunTask (close self) w).2 = w.
Proof.
  repeat split; try (by rewrite close_eq).
  apply run_task_closed, close_closed.
Qed.

(** C3: once [close] has been called, a call of [_get] raises
    [SubscriptionClosed] at once, creating no task, and so does every
    call made later, whatever happened in between; a wait that was in
    flight raises it as soon as its cancellation is delivered; calling
    [close] again changes nothing. *)
Theorem get_after_close_raises self w :
  _get_loop (close self) = (close self, Raised SubscriptionClosed) ∧
  (∀ evs st,
     let c := run evs (close self, w, st) in
     _shouldClose c.1.1 = true ∧ _ready c.1.1 = false ∧
     _get_loop c.1.1 = (c.1.1, Raised SubscriptionClosed) ∧
     (∀ evs', (_get evs' c.1.1 c.1.2).2 = Raised SubscriptionClosed) ∧
     close c.1.1 = c.1.1) ∧
  (∀ t, _getTask self = Some t → done t = false →
        (run [Env Close; Env RunTask; Resume] (self, w, Awaiting)).2 =
        Raised SubscriptionClosed) ∧
  close (close self) = close self.
Proof.
  split_and!.
  - apply closed_get_loop, close_closed.
  - intros evs st c.
    assert (Hc : closed c.1.1) by (apply (closed_run evs (close self, w, st)), close_closed).
    pose proof Hc as (H1 & H2 & _). split_and!; [done..|by apply closed_get_loop| |].
    + intros evs'. unfold _get. rewrite closed_get_loop by done.
      by destruct (run_raised evs' c.1.1 c.1.2 SubscriptionClosed) as (? & ? & ->).
    + by apply closed_close.
  - intros t Ht Hd. cbn. rewrite close_eq, Ht. cbn. rewrite cancel_pending by done. cbn.
    unfold _get_resume; cbn. done.
  - apply close_idempotent.
Qed.

(** *** Swapping the active subscription *)

Lemma wait_off_map old st (ot : option (task item)) (f : task item → task item) :
  (∀ t, cancelled_or_elsewhere old t → cancelled_or_elsewhere old (f t)) →
  (∀ src v, f (Task src (Finished v)) = Task src (Finished v)) →
  wait_off old st ot → wait_off old st (f <$> ot).
Proof.
  intros Hf Hfin. destruct st as [|v|e]; cbn; [| |done].
  - intros H t. destruct ot as [t0|]; cbn; [|done]. intros [= <-]. by apply Hf, H.
  - intros (src & -> & Hne). exists src. cbn. by rewrite Hfin.
Qed.

Lemma cancel_elsewhere old t :
  cancelled_or_elsewhere old t → cancelled_or_elsewhere old (cancel t).
Proof.
  unfold cancelled_or_elsewhere. destruct t as [a []]; cbn; intros [?|[?|?]]; auto; done.
Qed.

Lemma run_task_elsewhere old t w :
  cancelled_or_elsewhere old t → cancelled_or_elsewhere old (run_task t w).1.
Proof.
  unfold cancelled_or_elsewhere, run_task.
  destruct t as [a []]; cbn; try destruct (contents w a); cbn; intros [?|[?|?]]; auto; done.
Qed.

Lemma fail_task_elsewhere old e t :
  cancelled_or_elsewhere old t → cancelled_or_elsewhere old (fail_task e t).
Proof.
  unfold cancelled_or_elsewhere. destruct t as [a []]; cbn; intros [?|[?|?]]; auto; done.
Qed.

Lemma run_task_next_oid t w : next_oid (run_task t w).2 = next_oid w.
Proof. unfold run_task. destruct t as [a []]; cbn; try done. by destruct (contents w a). Qed.

(** The consumer side of an event around the wait: the active
    subscription is kept or replaced, the flags are kept or [close] is
    called, and the task is kept, cancelled, run or failed. *)
Lemma env_step_wait_off old ev self w st :
  never_installs old (Env ev) → _subscription self ≠ old → allocated w old →
  wait_off old st (_getTask self) →
  _subscription (env_step ev self w).1 ≠ old ∧ allocated (env_step ev self w).2 old ∧
  wait_off old st (_getTask (env_step ev self w).1) ∧
  (_shouldClose self = true → _shouldClose (env_step ev self w).1 = true).
Proof.
  intros Hev Hs Ha Hw.
  assert (Hcancel : wait_off old st (cancel <$> _getTask self)).
  { apply wait_off_map; [apply cancel_elsewhere|done|done]. }
  destruct ev as [|e|s|x| | |q x]; cbn [env_step fst snd].
  - destruct (_getTask self) as [t|] eqn:E; [|cbn; by rewrite E].
    pose proof (run_task_elsewhere old t w) as H1.
    pose proof (run_task_next_oid t w) as H2.
    assert (H3 : wait_off old st (Some (run_task t w).1)).
    { apply (wait_off_map old st (Some t) (fun t => (run_task t w).1)); [|done..].
      intros t0. apply run_task_elsewhere. }
    destruct (run_task t w) as [t' w']; cbn in *.
    split_and!; [done| |done..]. unfold allocated in *. by rewrite H2.
  - destruct (_getTask self) as [t|] eqn:E; [|cbn; by rewrite E]. cbn.
    split_and!; [done..| |done].
    apply (wait_off_map old st (Some t) (fail_task e)); [|done..].
    intros t0. apply fail_task_elsewhere.
  - destruct (putSubscription_fields s self) as (H1 & _ & _ & H4 & _ & H6).
    split_and!; [|done| |by rewrite H4].
    + rewrite H1. intros ->. by apply Hev.
    + by destruct H6 as [->| ->].
  - rewrite put_nowait_eq. case_decide; cbn [fst snd]; [done|].
    destruct (stop_fields self w) as (H1 & H2 & _ & H4 & _ & H6 & H7). cbn zeta in *.
    split_and!; [| | |by rewrite H4].
    + rewrite H1. by apply construct_fresh.
    + rewrite H7. unfold allocated in *; cbn; lia.
    + by destruct H6 as [->| ->].
  - destruct (stop_fields self w) as (H1 & H2 & _ & H4 & _ & H6 & H7). cbn zeta in *.
    split_and!; [| | |by rewrite H4].
    + rewrite H1. by apply construct_fresh.
    + rewrite H7. by apply allocated_construct.
    + by destruct H6 as [->| ->].
  - rewrite close_eq; cbn. done.
  - done.
Qed.

Lemma step_swapped_out old ev c :
  never_installs old ev → swapped_out old c → swapped_out old (step ev c).
Proof.
  destruct c as [[self w] st]. intros Hev Hinv.
  pose proof Hinv as (Hs & Ha & Hw & Hc); cbn in Hs, Ha, Hw, Hc.
  destruct ev as [ev|]; cbn [step].
  - destruct (env_step_wait_off old ev self w st) as (H1 & H2 & H3 & H4); [done..|].
    destruct (env_step ev self w) as [self' w']; cbn in *.
    split_and!; [done..|]. cbn. intros e ->. by apply H4, (Hc e).
  - destruct st as [|v|e]; [|done..].
    assert (Hl : swapped_out old ((_get_loop self).1, w, (_get_loop self).2)).
    { unfold _get_loop. destruct (_shouldClose self) eqn:Ec; cbn.
      - split_and!; [done..|]. by intros _ _.
      - split_and!; [done..| |done]. intros t [= <-]. by left. }
    unfold _get_resume.
    destruct (_getTask self) as [[a ts]|] eqn:E; [|done].
    destruct ts as [| |v| |e]; cbn [state].
    + done.
    + done.
    + split_and!; [done..| |done]. exists a. split; [done|].
      destruct (Hw _ eq_refl) as [?|[?|?]]; done.
    + by destruct (_get_loop self).
    + destruct e; by destruct (_get_loop self).
Qed.

Lemma run_swapped_out old evs c :
  Forall (never_installs old) evs → swapped_out old c → swapped_out old (run evs c).
Proof.
  revert c; induction evs as [|ev evs IH]; intros c Hev Hc; [done|].
  apply Forall_cons in Hev as [H1 H2]. cbn. by apply IH, step_swapped_out.
Qed.

Lemma get_loop_shouldClose self : _shouldClose (_get_loop self).1 = _shouldClose self.
Proof. unfold _get_loop. by destruct (_shouldClose self) eqn:E. Qed.

Lemma get_resume_shouldClose self : _shouldClose (_get_resume self).1 = _shouldClose self.
Proof.
  unfold _get_resume.
  destruct (_getTask self) as [[a [| |v| |e]]|]; cbn [state]; try done;
    try apply get_loop_shouldClose. destruct e; apply get_loop_shouldClose.
Qed.

(** Without a call of [close], the shutdown flag stays unset. *)
Lemma step_not_closed ev c :
  not_close ev → _shouldClose c.1.1 = false → _shouldClose (step ev c).1.1 = false.
Proof.
  destruct c as [[self w] st]. intros Hev Hc; cbn in *. destruct ev as [ev|]; cbn [step].
  - destruct ev as [|e|s|x| | |q x]; cbn [env_step fst snd].
    + destruct (_getTask self) as [t|]; [|done]. by destruct (run_task t w).
    + by destruct (_getTask self).
    + by destruct (putSubscription_fields s self) as (_ & _ & _ & -> & _).
    + rewrite put_nowait_eq. case_decide; cbn [fst snd]; [done|].
      by destruct (stop_fields self w) as (_ & _ & _ & -> & _).
    + pose proof (stop_fields self w) as (_ & _ & _ & H4 & _).
      destruct (stop self w); cbn in *. congruence.
    + by destruct Hev.
    + done.
  - destruct st; try done. pose proof (get_resume_shouldClose self) as H.
    destruct (_get_resume self); cbn in *. congruence.
Qed.

Lemma run_not_closed evs c :
  Forall not_close evs → _shouldClose c.1.1 = false → _shouldClose (run evs c).1.1 = false.
Proof.
  revert c; induction evs as [|ev evs IH]; intros c Hev Hc; [done|].
  apply Forall_cons in Hev as [H1 H2]. cbn. by apply IH, step_not_closed.
Qed.

(** *** What a swap guarantees *)

Lemma orderly_with_task (f : task item → task item) self w w' st :
  (∀ t, state (f t) = Pending → state t = Pending ∧ awaited (f t) = awaited t) →
  (∀ src v, f (Task src (Finished v)) = Task src (Finished v)) →
  orderly (self, w, st) → orderly (with_getTask (f <$> _getTask self) self, w', st).
Proof.
  intros Hf Hfin [Hw Hst]; cbn in Hw, Hst. split; cbn.
  - intros t Ht Hp. destruct (_getTask self) as [t0|] eqn:E; [|done].
    injection Ht as <-. destruct (Hf _ Hp) as [Hp0 ->]. by apply Hw.
  - destruct st as [|v|e]; [done| |done].
    destruct Hst as [src ->]. exists src. cbn. by rewrite Hfin.
Qed.

Lemma orderly_same_fields self self' w w' st :
  _getTask self' = _getTask self → _subscription self' = _subscription self →
  _shouldClose self' = _shouldClose self →
  orderly (self, w, st) → orderly (self', w', st).
Proof.
  intros E1 E2 E3 [Hw Hst]; cbn in Hw, Hst. split; cbn.
  - intros t. rewrite E1, E2. apply Hw.
  - destruct st; [done|by rewrite E1|by rewrite E3].
Qed.

Lemma cancel_pending_reflect t :
  state (cancel t) = Pending → state t = Pending ∧ awaited (cancel t) = awaited t.
Proof. by destruct t as [a []]. Qed.

Lemma run_task_pending_reflect w t :
  state (run_task t w).1 = Pending →
  state t = Pending ∧ awaited (run_task t w).1 = awaited t.
Proof. unfold run_task. destruct t as [a []]; cbn; try done. by destruct (contents w a). Qed.

Lemma fail_task_pending_reflect e t :
  state (fail_task e t) = Pending → state t = Pending ∧ awaited (fail_task e t) = awaited t.
Proof. by destruct t as [a []]. Qed.

Lemma orderly_putSubscription s self w w' st :
  orderly (self, w, st) → orderly (putSubscription s self, w', st).
Proof.
  intros Ho. destruct (decide (s = _subscription self)) as [->|Hne].
  - rewrite putSubscription_same. by apply (orderly_same_fields self _ w).
  - rewrite putSubscription_other by done.
    destruct Ho as [Hw Hst]; cbn in Hw, Hst. split; cbn.
    + intros t Ht Hp. destruct (_getTask self) as [t0|]; [|done]. injection Ht as <-.
      by destruct (cancel_not_pending t0).
    + destruct st as [|v|e]; [done| |done]. destruct Hst as [src ->]. by exists src.
Qed.

Lemma orderly_stop self w w' st :
  orderly (self, w, st) → orderly ((stop self w).1, w', st).
Proof.
  intros Ho. unfold stop; cbn. apply (orderly_putSubscription _ _ w).
  by apply (orderly_same_fields self _ w).
Qed.

Lemma orderly_env_step ev self w st :
  orderly (self, w, st) →
  orderly ((env_step ev self w).1, (env_step ev self w).2, st).
Proof.
  intros Ho. destruct ev as [|e|s|x| | |q x]; cbn [env_step].
  - destruct (_getTask self) as [t|] eqn:E; [|done].
    pose proof (orderly_with_task (fun t => (run_task t w).1) self w
                  (run_task t w).2 st (run_task_pending_reflect w)) as H.
    rewrite E in H. cbn [fmap option_fmap option_map] in H.
    destruct (run_task t w) as [t' w'] eqn:Er. cbn [fst snd] in *.
    apply H; [|done]. intros src v. unfold run_task. done.
  - destruct (_getTask self) as [t|] eqn:E; [|done].
    pose proof (orderly_with_task (fail_task e) self w w st
                  (fail_task_pending_reflect e)) as H.
    rewrite E in H. cbn in *. by apply H.
  - by apply (orderly_putSubscription _ _ w).
  - rewrite put_nowait_eq. case_decide; cbn [fst snd].
    + by apply (orderly_same_fields self _ w).
    + by apply (orderly_stop _ w).
  - pose proof (orderly_stop self w (stop self w).2 st Ho) as H.
    by destruct (stop self w).
  - cbn [fst snd]. rewrite close_eq.
    destruct Ho as [Hw Hst]; cbn in Hw, Hst. split; cbn.
    + intros t Ht Hp. destruct (_getTask self) as [t0|]; [|done]. injection Ht as <-.
      by destruct (cancel_not_pending t0).
    + destruct st as [|v|e]; [done| |by destruct Hst]. destruct Hst as [src ->]. by exists src.
  - by apply (orderly_same_fields self _ w).
Qed.

Lemma orderly_step ev c : orderly c → orderly (step ev c).
Proof.
  destruct c as [[self w] st]. intros Ho. destruct ev as [ev|]; cbn [step].
  - pose proof (orderly_env_step ev self w st Ho) as H.
    by destruct (env_step ev self w).
  - destruct st as [|v|e]; [|done..].
    destruct Ho as [Hw _]; cbn in Hw.
    assert (Hl : orderly ((_get_loop self).1, w, (_get_loop self).2)).
    { unfold _get_loop. destruct (_shouldClose self) eqn:Ec; cbn [fst snd].
      - by split.
      - split; [|done]. cbn. by intros t [= <-]. }
    unfold _get_resume.
    destruct (_getTask self) as [[a ts]|] eqn:E; [|by split].
    destruct ts as [| |v| |e]; cbn [state].
    + by split.
    + by split.
    + split; [done|]. cbn. by exists a.
    + by destruct (_get_loop self).
    + destruct e; by destruct (_get_loop self).
Qed.

Lemma orderly_run evs c : orderly c → orderly (run evs c).
Proof.
  revert c; induction evs as [|ev evs IH]; intros c Hc; [done|].
  cbn. by apply IH, orderly_step.
Qed.

(** The scheduler running the task takes an item from the active
    subscription or takes nothing. *)
Lemma run_task_takes_from_active self w :
  waits_on_active self →
  (env_step RunTask self w).2 = w ∨
  ∃ x rest,
    contents w (_subscription self) = x :: rest ∧
    env_step RunTask self w =
    (with_getTask (Some (Task (_subscription self) (Finished x))) self,
     set_contents (_subscription self) rest w).
Proof.
  intros Hw. cbn. destruct (_getTask self) as [[a ts]|] eqn:E; [|by left].
  unfold run_task; cbn. destruct ts; try by left.
  pose proof (Hw _ E eq_refl) as Ea; cbn in Ea. subst a.
  destruct (contents w (_subscription self)) as [|x rest] eqn:Eq; [by left|].
  right. by exists x, rest.
Qed.

(** C2 (amended): while a wait is in flight, [putSubscription] with the
    active subscription changes nothing; with another one it replaces
    the active reference and cancels the wait; the wait loop, once the
    cancellation is delivered, starts a new wait on the new
    subscription.  Under every schedule that follows, the only exception
    the call raises is [SubscriptionClosed], on a closed consumer, and
    without a call of [close] nothing is raised; a value returned is the
    result of the finished task; a wait that can still take an item is
    on the active subscription, so that the scheduler takes items from
    the active subscription only; and the wait that was in flight at the
    swap delivers nothing: unless the old subscription is installed
    again, no value returned was delivered by a wait on it.  (A wait
    that had completed before the swap is not cancelled: its value is
    returned, see [putSubscription_after_completion].) *)
Theorem putSubscription_cancels_wait_in_flight self w t :
  _getTask self = Some t → done t = false →
  putSubscription (_subscription self) self = self ∧
  ∀ new, new ≠ _subscription self →
    putSubscription new self =
      with_getTask (Some (Task (awaited t) CancelRequested)) (with_subscription new self) ∧
    (_shouldClose self = false →
     run [Env RunTask; Resume] (putSubscription new self, w, Awaiting) =
       (with_getTask (Some (Task new Pending)) (with_subscription new self), w, Awaiting)) ∧
    (∀ evs,
       let c := run evs (putSubscription new self, w, Awaiting) in
       (∀ e, c.2 = Raised e → e = SubscriptionClosed ∧ _shouldClose c.1.1 = true) ∧
       (_shouldClose self = false → Forall not_close evs → ∀ e, c.2 ≠ Raised e) ∧
       (∀ v, c.2 = Returned v → ∃ src, _getTask c.1.1 = Some (Task src (Finished v))) ∧
       waits_on_active c.1.1 ∧
       ((env_step RunTask c.1.1 c.1.2).2 = c.1.2 ∨
        ∃ x rest,
          contents c.1.2 (_subscription c.1.1) = x :: rest ∧
          env_step RunTask c.1.1 c.1.2 =
          (with_getTask (Some (Task (_subscription c.1.1) (Finished x))) c.1.1,
           set_contents (_subscription c.1.1) rest c.1.2)) ∧
       (allocated w (_subscription self) →
        Forall (never_installs (_subscription self)) evs →
        ∀ v src, c.2 = Returned v → _getTask c.1.1 = Some (Task src (Finished v)) →
                 src ≠ _subscription self)).
Proof.
  intros Ht Hd. split; [apply putSubscription_same|]. intros new Hne.
  assert (E : putSubscription new self =
              with_getTask (Some (Task (awaited t) CancelRequested))
                           (with_subscription new self)).
  { rewrite putSubscription_other, Ht by done. cbn. by rewrite cancel_pending. }
  split_and!; [done| |].
  - intros Hc. rewrite E. cbn. unfold _get_resume, _get_loop; cbn. by rewrite Hc.
  - intros evs c.
    assert (Ho : orderly c).
    { apply orderly_run. rewrite E. split; [|done]. cbn. by intros ? [= <-]. }
    destruct Ho as [Hw Hst].
    assert (Hr : ∀ e, c.2 = Raised e → e = SubscriptionClosed ∧ _shouldClose c.1.1 = true).
    { intros e Est. by rewrite Est in Hst. }
    split_and!.
    + done.
    + intros Hc Hnc e Est.
      pose proof (run_not_closed evs (putSubscription new self, w, Awaiting) Hnc) as Hf.
      cbn in Hf. rewrite E in Hf. specialize (Hf Hc). rewrite <- E in Hf. fold c in Hf.
      destruct (Hr e Est) as [_ Hcl]. congruence.
    + intros v Est. by rewrite Est in Hst.
    + done.
    + by apply run_task_takes_from_active.
    + intros Ha Hev v src Est Hsrc.
      assert (Hs : swapped_out (_subscription self) c).
      { apply run_swapped_out; [done|]. rewrite E. split_and!; cbn; [done..| |done].
        intros ? [= <-]. right. by left. }
      destruct Hs as (_ & _ & Hwo & _). rewrite Est in Hwo. cbn in Hwo.
      destruct Hwo as (src' & Hsrc' & Hne'). congruence.
Qed.

(** A wait that has completed, but whose value the caller has not
    picked up yet, is not in flight; [putSubscription] does not cancel
    it and the call returns its value. *)
Lemma putSubscription_after_completion self w old new v :
  _getTask self = Some (Task old (Finished v)) →
  run [Env (PutSubscription new); Resume] (self, w, Awaiting) =
    (putSubscription new self, w, Returned v).
Proof.
  intros Ht. cbn. unfold _get_resume.
  destruct (putSubscription_fields new self) as (_ & _ & _ & _ & _ & [->| ->]);
    by rewrite Ht.
Qed.
End ConsumerFacts.

(** ** Thread-bridged consumer *)

Section ThreadedConsumerFacts.
Context {item : Type}.
Import BaseSubscriptionConsumer ThreadedSubscriptionConsumer.
Implicit Types (w : world item) (self : consumer item) (t : task item)
         (pc : get_pc item) (o : wait_outcome item).

Lemma get_handle_not_timeout o : _get_handle o ≠ Raised TimeoutError.
Proof. destruct o as [v|[]|]; done. Qed.

Lemma get_step_not_timeout b self pc :
  pc ≠ Raised TimeoutError → (_get_step b self pc).2 ≠ Raised TimeoutError.
Proof.
  intros Hpc. destruct pc; cbn; try done.
  - unfold _get_test. by destruct (_shouldClose self).
  - destruct (_getTask self); [apply get_handle_not_timeout|done].
Qed.

Lemma get_run_not_timeout (evs : list (get_event item)) (c : get_config item) :
  c.2 ≠ Raised TimeoutError →
  (foldl (fun c ev => get_step ev c) c evs).2 ≠ Raised TimeoutError.
Proof.
  revert c; induction evs as [|ev evs IH]; intros c Hc; [done|].
  cbn. apply IH. destruct c as [[self w] pc]; cbn in *. destruct ev as [e|b]; cbn.
  - by destruct (env_step e self w).
  - pose proof (get_step_not_timeout b self pc Hc). by destruct (_get_step b self pc).
Qed.

Lemma consumer_timeout_free b (tc : threaded_consumer item) :
  timeout_free (_consumerThread tc) → timeout_free (_consumerThread (_consumer b tc)).
Proof.
  intros [H1 H2]. unfold _consumer.
  destruct (_consumerThread tc) as [|pc|e] eqn:E; cbn [_consumerThread].
  - by split.
  - assert (Hne : (_get_step b (base tc) pc).2 ≠ Raised TimeoutError).
    { apply get_step_not_timeout. congruence. }
    destruct (_get_step b (base tc) pc) as [b' pc']; cbn in *.
    destruct pc' as [| | |v|[]]; cbn; by split.
  - rewrite E. by split.
Qed.

Lemma run_timeout_free (evs : list (get_event item)) (tc : threaded_consumer item) w :
  timeout_free (_consumerThread tc) →
  timeout_free (_consumerThread (ThreadedSubscriptionConsumer.run evs tc w).1).
Proof.
  unfold ThreadedSubscriptionConsumer.run.
  revert tc w; induction evs as [|ev evs IH]; intros tc w Hc; [done|].
  cbn [foldl]. destruct ev as [e|b]; cbn [ThreadedSubscriptionConsumer.step fst snd].
  - destruct (env_step e (base tc) w) as [b' w']. by apply IH.
  - by apply IH, consumer_timeout_free.
Qed.

(** C7: while the handle is not done, [result(1)] times out; the
    handler of the timeout puts the worker back at the [while] test with
    the consumer unchanged, and the test reads the shutdown flag again;
    under no schedule does a call of [_get] raise the timeout, and the
    worker thread never dies of one. *)
Theorem get_timeout_loops_back self t :
  _getTask self = Some t → done t = false →
  result true t = Raises TimeoutError ∧
  _get_handle (result true t) = AtTest ∧
  _get_step true self Blocked = (self, AtTest) ∧
  (∀ b, _get_step b self AtTest =
        (self, if _shouldClose self then Raised SubscriptionClosed else AtSubmit)) ∧
  (∀ evs self0 w0, (ThreadedSubscriptionConsumer._get evs self0 w0).2 ≠ Raised TimeoutError) ∧
  (∀ evs ty w0,
     let tc := (ThreadedSubscriptionConsumer.__init__ ty w0).1 in
     let w1 := (ThreadedSubscriptionConsumer.__init__ (item := item) ty w0).2 in
     _consumerThread (ThreadedSubscriptionConsumer.run evs tc w1).1 ≠
       Exited (Some TimeoutError)).
Proof.
  intros Ht Hd.
  assert (E : result true t = Raises TimeoutError).
  { unfold result. by destruct t as [a []]. }
  split_and!.
  - done.
  - by rewrite E.
  - cbn. by rewrite Ht, E.
  - done.
  - intros evs self0 w0. by apply get_run_not_timeout.
  - intros evs ty w0 tc w1. by apply run_timeout_free.
Qed.
End ThreadedConsumerFacts.

(** ** The shutdown flag *)

Section ShutdownFlag.
Context {item : Type}.
Implicit Types (w : world item).

Lemma producer_do_ops_shouldClose (os : list (BaseSubscriptionProducer.op item))
    (p : BaseSubscriptionProducer.producer) w :
  BaseSubscriptionProducer._shouldClose p = true →
  BaseSubscriptionProducer._shouldClose (BaseSubscriptionProducer.do_ops os p w).1 = true.
Proof.
  unfold BaseSubscriptionProducer.do_ops.
  revert p w; induction os as [|o os IH]; intros p w Hp; [done|].
  cbn [foldl fst snd]. destruct o as [c|]; cbn [BaseSubscriptionProducer.do_op].
  - destruct (BaseSubscriptionProducer.do_call c _ w) as [r w']. by apply IH.
  - by apply IH.
Qed.

Lemma consumer_env_step_shouldClose (ev : BaseSubscriptionConsumer.env_event item)
    (self : BaseSubscriptionConsumer.consumer item) w :
  BaseSubscriptionConsumer._shouldClose self = true →
  BaseSubscriptionConsumer._shouldClose (BaseSubscriptionConsumer.env_step ev self w).1 = true.
Proof.
  intros Hc. destruct ev as [|e|s|x| | |q x]; cbn [BaseSubscriptionConsumer.env_step fst snd].
  - destruct (BaseSubscriptionConsumer._getTask self) as [t|]; [|done].
    by destruct (BaseSubscriptionConsumer.run_task t w).
  - by destruct (BaseSubscriptionConsumer._getTask self).
  - by destruct (putSubscription_fields s self) as (_ & _ & _ & -> & _).
  - rewrite put_nowait_eq. case_decide; cbn [fst snd]; [done|].
    by destruct (stop_fields self w) as (_ & _ & _ & -> & _).
  - by destruct (stop_fields self w) as (_ & _ & _ & -> & _).
  - by rewrite close_eq.
  - done.
Qed.

Lemma consumer_run_shouldClose (evs : list (BaseSubscriptionConsumer.event item))
    (c : BaseSubscriptionConsumer.config item) :
  BaseSubscriptionConsumer._shouldClose c.1.1 = true →
  BaseSubscriptionConsumer._shouldClose (BaseSubscriptionConsumer.run evs c).1.1 = true.
Proof.
  revert c; induction evs as [|ev evs IH]; intros c Hc; [done|].
  cbn. apply IH. destruct c as [[self w] st]; cbn in *. destruct ev as [e|].
  - pose proof (consumer_env_step_shouldClose e self w Hc).
    by destruct (BaseSubscriptionConsumer.env_step e self w).
  - destruct st; try done. pose proof (get_resume_shouldClose self) as H.
    destruct (BaseSubscriptionConsumer._get_resume self); cbn in *. congruence.
Qed.

Lemma threaded_producer_run_shouldClose (evs : list (ThreadedSubscriptionProducer.event item))
    (self : ThreadedSubscriptionProducer.threaded_producer item) w :
  BaseSubscriptionProducer.get_shouldClose self = true →
  BaseSubscriptionProducer.get_shouldClose (ThreadedSubscriptionProducer.run evs self w).1 = true.
Proof.
  unfold ThreadedSubscriptionProducer.run.
  revert self w; induction evs as [|ev evs IH]; intros self w Hc; [done|].
  cbn [foldl]. destruct ev as [c| | | |x]; cbn [ThreadedSubscriptionProducer.step fst snd].
  - destruct c as [arg|arg| | |x]; try by apply IH.
    all: cbn [BaseSubscriptionProducer.do_op];
      destruct (BaseSubscriptionProducer.do_call _ _ w) as [r w']; by apply IH.
  - by apply IH.
  - apply IH. unfold ThreadedSubscriptionProducer._producer.
    destruct (ThreadedSubscriptionProducer._producerThread self); [done| |done].
    rewrite Hc. done.
  - unfold ThreadedSubscriptionProducer.loop_run.
    destruct (ThreadedSubscriptionProducer._loop self); by apply IH.
  - by apply IH.
Qed.

Lemma process_producer_run_shouldClose (evs : list (ProcessSubscriptionProducer.event item))
    (self : ProcessSubscriptionProducer.process_producer item) w :
  ProcessSubscriptionProducer._shouldClose self = true →
  ProcessSubscriptionProducer._shouldClose (ProcessSubscriptionProducer.run evs self w).1 = true.
Proof.
  unfold ProcessSubscriptionProducer.run.
  revert self w; induction evs as [|ev evs IH]; intros self w Hc; [done|].
  cbn [foldl]. destruct ev as [c| | | |]; cbn [ProcessSubscriptionProducer.step fst snd].
  - destruct c as [arg|arg| | |x]; try by apply IH.
    all: cbn [BaseSubscriptionProducer.do_op];
      destruct (BaseSubscriptionProducer.do_call _ _ w) as [r w']; by apply IH.
  - by apply IH.
  - apply IH. unfold ProcessSubscriptionProducer.__producerSetup.
    by destruct (ProcessSubscriptionProducer._producerProcess self).
  - apply IH. unfold ProcessSubscriptionProducer.__queueReader. by rewrite Hc.
  - unfold ProcessSubscriptionProducer.loop_run.
    destruct (ProcessSubscriptionProducer._loop self); by apply IH.
Qed.

Lemma threaded_get_step_shouldClose b (self : BaseSubscriptionConsumer.consumer item)
    (pc : ThreadedSubscriptionConsumer.get_pc item) :
  BaseSubscriptionConsumer._shouldClose (ThreadedSubscriptionConsumer._get_step b self pc).1 =
  BaseSubscriptionConsumer._shouldClose self.
Proof. destruct pc; cbn; try done. by destruct (BaseSubscriptionConsumer._getTask self). Qed.

Lemma threaded_consumer_run_shouldClose (evs : list (ThreadedSubscriptionConsumer.get_event item))
    (self : ThreadedSubscriptionConsumer.threaded_consumer item) w :
  BaseSubscriptionConsumer._shouldClose (ThreadedSubscriptionConsumer.base self) = true →
  BaseSubscriptionConsumer._shouldClose
    (ThreadedSubscriptionConsumer.base (ThreadedSubscriptionConsumer.run evs self w).1) = true.
Proof.
  unfold ThreadedSubscriptionConsumer.run.
  revert self w; induction evs as [|ev evs IH]; intros self w Hc; [done|].
  cbn [foldl]. destruct ev as [e|b]; cbn [ThreadedSubscriptionConsumer.step fst snd].
  - pose proof (consumer_env_step_shouldClose e _ w Hc).
    destruct (BaseSubscriptionConsumer.env_step e _ w) as [b' w']. by apply IH.
  - apply IH. unfold ThreadedSubscriptionConsumer._consumer.
    destruct (ThreadedSubscriptionConsumer._consumerThread self) as [|pc|e]; [done| |done].
    pose proof (threaded_get_step_shouldClose b (ThreadedSubscriptionConsumer.base self) pc) as H.
    destruct (ThreadedSubscriptionConsumer._get_step b _ pc) as [b' pc']; cbn in H.
    destruct pc' as [| | |v|[]]; cbn; congruence.
Qed.

Lemma composite_run_shouldClose (evs : list (SubscriptionProducerConsumer.event item))
    (self : SubscriptionProducerConsumer.producer_consumer item) w :
  BaseSubscriptionProducer.get_shouldClose self = true →
  BaseSubscriptionProducer.get_shouldClose (SubscriptionProducerConsumer.run evs self w).1 = true.
Proof.
  unfold SubscriptionProducerConsumer.run.
  revert self w; induction evs as [|ev evs IH]; intros self w Hc; [done|].
  cbn [foldl]. destruct ev as [e|c|]; cbn [SubscriptionProducerConsumer.step fst snd].
  - pose proof (consumer_env_step_shouldClose e _ w Hc) as H.
    destruct e; try by apply IH.
    all: destruct (BaseSubscriptionConsumer.env_step _ _ w) as [b' w']; by apply IH.
  - cbn [BaseSubscriptionProducer.do_op].
    destruct (BaseSubscriptionProducer.do_call _ _ w) as [r w']. by apply IH.
  - by apply IH.
Qed.

(** C9: once the shutdown flag is set, no sequence of calls and
    background steps resets it, in the producer core, the consumer core
    (with or without a wait in flight), the thread-bridged producer, the
    process-bridged producer, whose flag is the close event behind the
    property [_shouldClose], the thread-bridged consumer and the
    composite; and [close] sets it in each of them. *)
Theorem shouldClose_is_monotonic :
  (∀ (os : list (BaseSubscriptionProducer.op item)) p w,
     BaseSubscriptionProducer._shouldClose p = true →
     BaseSubscriptionProducer._shouldClose (BaseSubscriptionProducer.do_ops os p w).1 = true) ∧
  (∀ p : BaseSubscriptionProducer.producer,
     BaseSubscriptionProducer._shouldClose (BaseSubscriptionProducer.close p) = true) ∧
  (∀ (evs : list (BaseSubscriptionConsumer.event item)) c,
     BaseSubscriptionConsumer._shouldClose c.1.1 = true →
     BaseSubscriptionConsumer._shouldClose (BaseSubscriptionConsumer.run evs c).1.1 = true) ∧
  (∀ self : BaseSubscriptionConsumer.consumer item,
     BaseSubscriptionConsumer._shouldClose (BaseSubscriptionConsumer.close self) = true) ∧
  (∀ (evs : list (ThreadedSubscriptionProducer.event item)) self w,
     BaseSubscriptionProducer.get_shouldClose self = true →
     BaseSubscriptionProducer.get_shouldClose
       (ThreadedSubscriptionProducer.run evs self w).1 = true) ∧
  (∀ self : ThreadedSubscriptionProducer.threaded_producer item,
     BaseSubscriptionProducer.get_shouldClose (ThreadedSubscriptionProducer.close self) = true) ∧
  (∀ (evs : list (ProcessSubscriptionProducer.event item)) self w,
     ProcessSubscriptionProducer._shouldClose self = true →
     ProcessSubscriptionProducer._shouldClose
       (ProcessSubscriptionProducer.run evs self w).1 = true) ∧
  (∀ self : ProcessSubscriptionProducer.process_producer item,
     ProcessSubscriptionProducer._shouldClose (ProcessSubscriptionProducer.close self) = true) ∧
  (∀ (evs : list (ThreadedSubscriptionConsumer.get_event item)) self w,
     BaseSubscriptionConsumer._shouldClose (ThreadedSubscriptionConsumer.base self) = true →
     BaseSubscriptionConsumer._shouldClose
       (ThreadedSubscriptionConsumer.base
          (ThreadedSubscriptionConsumer.run evs self w).1) = true) ∧
  (∀ (evs : list (SubscriptionProducerConsumer.event item)) self w,
     BaseSubscriptionProducer.get_shouldClose self = true →
     BaseSubscriptionProducer.get_shouldClose
       (SubscriptionProducerConsumer.run evs self w).1 = true) ∧
  (∀ self : SubscriptionProducerConsumer.producer_consumer item,
     BaseSubscriptionProducer.get_shouldClose (SubscriptionProducerConsumer.close self) = true).
Proof.
  split_and!.
  - apply producer_do_ops_shouldClose.
  - done.
  - apply consumer_run_shouldClose.
  - intros self. by rewrite close_eq.
  - apply threaded_producer_run_shouldClose.
  - done.
  - apply process_producer_run_shouldClose.
  - done.
  - apply threaded_consumer_run_shouldClose.
  - apply composite_run_shouldClose.
  - intros self. unfold SubscriptionProducerConsumer.close. cbn. done.
Qed.
End ShutdownFlag.

(** ** The theorems at the sample objects *)

Lemma a_registry_classified : BaseSubscriptionProducer.classified a_registry.
Proof.
  split; [|split]; cbn; intros o Ho; apply elem_of_singleton in Ho; by subst.
Qed.

Lemma put_nowait_reaches_every_subscriber_witness :
  contents
    (BaseSubscriptionProducer.do_calls
       [BaseSubscriptionProducer.PutNowait 1;
        BaseSubscriptionProducer.Subscribe (Some another_queue);
        BaseSubscriptionProducer.PutNowait 2;
        BaseSubscriptionProducer.PutNowait 3] a_registry a_world).2 a_queue = [1; 2; 3].
Proof.
  destruct (put_nowait_reaches_every_subscriber 0 a_registry a_world)
    as (_ & _ & _ & _ & _ & H).
  destruct (H a_queue
              [BaseSubscriptionProducer.PutNowait 1;
               BaseSubscriptionProducer.Subscribe (Some another_queue);
               BaseSubscriptionProducer.PutNowait 2;
               BaseSubscriptionProducer.PutNowait 3]) as [_ E].
  - change (a_queue ∈ ({[a_queue]} : gset pyobj)). by apply elem_of_singleton_2.
  - unfold allocated; cbn; lia.
  - done.
  - repeat constructor.
  - exact E.
Defined.

Lemma unsubscribe_removes_or_raises_witness :
  BaseSubscriptionProducer.unsubscribe (Some a_queue) a_registry =
    Ok (BaseSubscriptionProducer.Registry
          ({[a_queue]} ∖ {[a_queue]}) ({[a_callback]} ∖ {[a_queue]})
          ({[a_coroutine]} ∖ {[a_queue]}) asyncio_Queue None) ∧
  BaseSubscriptionProducer.unsubscribe (Some another_queue) a_registry =
    Raise (KeyError another_queue).
Proof.
  destruct (unsubscribe_removes_or_raises (item := nat) a_registry) as (H1 & H2 & _).
  split.
  - apply H1; [apply a_registry_classified|]. left.
    change (a_queue ∈ ({[a_queue]} : gset pyobj)). by apply elem_of_singleton_2.
  - apply H2. unfold BaseSubscriptionProducer.registered, a_registry; cbn.
    intros [H|[H|H]]; apply elem_of_singleton in H; discriminate.
Defined.

Lemma get_reuses_default_subscription_witness :
  BaseSubscriptionProducer.got
    [BaseSubscriptionProducer.PutNowait 1; BaseSubscriptionProducer.Get;
     BaseSubscriptionProducer.PutNowait 2; BaseSubscriptionProducer.Get]
    a_registry_with_default a_world ++
  contents
    (BaseSubscriptionProducer.do_calls
       [BaseSubscriptionProducer.PutNowait 1; BaseSubscriptionProducer.Get;
        BaseSubscriptionProducer.PutNowait 2; BaseSubscriptionProducer.Get]
       a_registry_with_default a_world).2 a_default_queue = [1; 2].
Proof.
  destruct (get_reuses_default_subscription a_registry_with_default a_world)
    as (_ & _ & _ & H & _).
  apply (H a_default_queue).
  - done.
  - change (a_default_queue ∈ ({[a_default_queue]} : gset pyobj)).
    by apply elem_of_singleton_2.
  - unfold allocated; cbn; lia.
  - repeat constructor.
  - repeat constructor.
Defined.

Lemma put_nowait_detaches_then_enqueues_witness :
  BaseSubscriptionConsumer.subscription
    (BaseSubscriptionConsumer.put_nowait 5 a_waiting_consumer a_world).1 = None ∧
  contents (BaseSubscriptionConsumer.put_nowait 5 a_waiting_consumer a_world).2
           (PyObj 6 true false) = [5].
Proof.
  destruct (put_nowait_detaches_then_enqueues 5 a_waiting_consumer a_world) as [H _].
  destruct H as (_ & _ & _ & H1 & _ & _ & H2 & _); [done|]. by split.
Defined.

Lemma get_after_close_raises_witness :
  (BaseSubscriptionConsumer.run
     [BaseSubscriptionConsumer.Env BaseSubscriptionConsumer.Close;
      BaseSubscriptionConsumer.Env BaseSubscriptionConsumer.RunTask;
      BaseSubscriptionConsumer.Resume]
     (a_waiting_consumer, a_world, BaseSubscriptionConsumer.Awaiting)).2 =
  BaseSubscriptionConsumer.Raised SubscriptionClosed.
Proof.
  destruct (get_after_close_raises a_waiting_consumer a_world) as (_ & _ & H & _).
  by apply (H (BaseSubscriptionConsumer.Task a_queue BaseSubscriptionConsumer.Pending)).
Defined.

Lemma putSubscription_cancels_wait_in_flight_witness :
  BaseSubscriptionConsumer.run
    [BaseSubscriptionConsumer.Env BaseSubscriptionConsumer.RunTask;
     BaseSubscriptionConsumer.Resume]
    (BaseSubscriptionConsumer.putSubscription another_queue a_waiting_consumer,
     a_fed_world, BaseSubscriptionConsumer.Awaiting) =
  (BaseSubscriptionConsumer.with_getTask
     (Some (BaseSubscriptionConsumer.Task another_queue BaseSubscriptionConsumer.Pending))
     (BaseSubscriptionConsumer.with_subscription another_queue a_waiting_consumer),
   a_fed_world, BaseSubscriptionConsumer.Awaiting).
Proof.
  destruct (putSubscription_cancels_wait_in_flight
              a_waiting_consumer a_fed_world
              (BaseSubscriptionConsumer.Task a_queue BaseSubscriptionConsumer.Pending)
              eq_refl eq_refl) as [_ H].
  destruct (H another_queue) as (_ & Hretry & _); [discriminate|].
  apply Hretry. reflexivity.
Defined.

(** The claim as it was stated fails when the wait completes just
    before the swap: starting with a wait in flight, the wait on
    [a_queue] takes the item 7, another queue is installed before [_get]
    is resumed, and [_get] returns 7 while the other queue is the active
    subscription. *)
Lemma swap_after_completion_returns_old_item :
  (BaseSubscriptionConsumer.run
     [BaseSubscriptionConsumer.Env BaseSubscriptionConsumer.RunTask;
      BaseSubscriptionConsumer.Env (BaseSubscriptionConsumer.PutSubscription another_queue);
      BaseSubscriptionConsumer.Resume]
     (a_waiting_consumer, a_fed_world, BaseSubscriptionConsumer.Awaiting)).2 =
    BaseSubscriptionConsumer.Returned 7 ∧
  BaseSubscriptionConsumer._subscription
    (BaseSubscriptionConsumer.run
       [BaseSubscriptionConsumer.Env BaseSubscriptionConsumer.RunTask;
        BaseSubscriptionConsumer.Env (BaseSubscriptionConsumer.PutSubscription another_queue);
        BaseSubscriptionConsumer.Resume]
       (a_waiting_consumer, a_fed_world, BaseSubscriptionConsumer.Awaiting)).1.1 =
    another_queue ∧
  BaseSubscriptionConsumer._getTask
    (BaseSubscriptionConsumer.run
       [BaseSubscriptionConsumer.Env BaseSubscriptionConsumer.RunTask;
        BaseSubscriptionConsumer.Env (BaseSubscriptionConsumer.PutSubscription another_queue);
        BaseSubscriptionConsumer.Resume]
       (a_waiting_consumer, a_fed_world, BaseSubscriptionConsumer.Awaiting)).1.1 =
    Some (BaseSubscriptionConsumer.Task a_queue (BaseSubscriptionConsumer.Finished 7)) ∧
  BaseSubscriptionConsumer.done <$> BaseSubscriptionConsumer._getTask a_waiting_consumer =
    Some false.
Proof. repeat split; reflexivity. Qed.

Lemma get_timeout_loops_back_witness :
  ThreadedSubscriptionConsumer._get_step true a_waiting_consumer
    ThreadedSubscriptionConsumer.Blocked =
  (a_waiting_consumer, ThreadedSubscriptionConsumer.AtTest).
Proof.
  exact (proj1 (proj2 (proj2
           (get_timeout_loops_back a_waiting_consumer
              (BaseSubscriptionConsumer.Task a_queue BaseSubscriptionConsumer.Pending)
              eq_refl eq_refl)))).
Defined.

Lemma shouldClose_is_monotonic_witness :
  ProcessSubscriptionProducer._shouldClose
    (ProcessSubscriptionProducer.run
       [ProcessSubscriptionProducer.ReaderStep;
        ProcessSubscriptionProducer.Api (BaseSubscriptionProducer.PutNowait 3);
        ProcessSubscriptionProducer.ChildStep;
        ProcessSubscriptionProducer.Api (BaseSubscriptionProducer.Subscribe None);
        ProcessSubscriptionProducer.LoopStep]
       a_closed_process_producer a_world).1 = true.
Proof.
  destruct (@shouldClose_is_monotonic nat) as (_ & _ & _ & _ & _ & _ & H & _).
  by apply H.
Defined.

(** * Further properties *)

(** ** Producer core: registration and delivery *)

Section ProducerMore.
Context {item : Type}.
Import BaseSubscriptionProducer.
Implicit Types (w : world item) (q s c o d : pyobj) (x : item) (self : registry).

Lemma unsubscribe_given_ok_registered o self self' :
  unsubscribe_given o self = Ok self' → registered self o.
Proof.
  rewrite unsubscribe_given_eq. unfold registered.
  destruct (has_put_nowait o), (iscoroutinefunction o); case_decide; intros [= <-]; auto.
Qed.

Lemma unsubscribe_given_unregisters o self self' :
  classified self → unsubscribe_given o self = Ok self' → ¬ registered self' o.
Proof.
  intros Hc E. pose proof (unsubscribe_given_ok_registered _ _ _ E) as Hr.
  rewrite unsubscribe_given_registered in E by done. injection E as <-.
  unfold registered; cbn. set_solver.
Qed.

(** Broadcasting to a registry in which [o] is not registered changes
    nothing that belongs to [o]. *)
Lemma put_nowait_unregistered x self w o :
  ¬ registered self o →
  contents (_put_nowait x self w) o = contents w o ∧
  calls_of o (called (_put_nowait x self w)) = calls_of o (called w) ∧
  calls_of o (futures (_put_nowait x self w)) = calls_of o (futures w).
Proof.
  unfold registered. intros Hr.
  rewrite put_nowait_contents, put_nowait_calls_of, put_nowait_futures_of.
  rewrite !decide_False by tauto. by rewrite !app_nil_r.
Qed.

(** X1: subscribing an object that was not registered and then
    unsubscribing it gives back the registries as they were. *)
Theorem subscribe_then_unsubscribe_restores o self w :
  classified self → ¬ registered self o →
  unsubscribe (Some o) (subscribe (Some o) self w).1.2 = Ok self.
Proof.
  intros Hc Hr. rewrite subscribe_eq. cbn [fst snd unsubscribe].
  rewrite unsubscribe_given_registered
    by (by apply add_to_classified || apply add_to_registered).
  rewrite add_to_subscriptions, add_to_callbacks, add_to_cocallbacks.
  rewrite (proj1 (add_to_default o self)), (proj2 (add_to_default o self)).
  unfold registered in Hr. destruct self as [S C A cls dflt]; cbn in *.
  f_equal. destruct (has_put_nowait o), (iscoroutinefunction o); f_equal; set_solver.
Qed.

(** X2: once an object has been unsubscribed, unsubscribing it again
    raises [KeyError], and a broadcast leaves its buffer, the list of
    calls made to it and the list of invocations scheduled for it as
    they were. *)
Theorem unsubscribe_ends_delivery o self self' x w :
  classified self → unsubscribe (Some o) self = Ok self' →
  unsubscribe (Some o) self' = Raise (KeyError o) ∧
  contents (_put_nowait x self' w) o = contents w o ∧
  calls_of o (called (_put_nowait x self' w)) = calls_of o (called w) ∧
  calls_of o (futures (_put_nowait x self' w)) = calls_of o (futures w).
Proof.
  cbn [unsubscribe]. intros Hc E.
  pose proof (unsubscribe_given_unregisters _ _ _ Hc E) as Hn.
  split; [by apply unsubscribe_given_unregistered|by apply put_nowait_unregistered].
Qed.

Lemma put_nowait_no_subscriber x self w :
  __subscriptions self = ∅ → __callbacks self = ∅ → __cocallbacks self = ∅ →
  _put_nowait x self w = w.
Proof.
  intros E1 E2 E3. unfold _put_nowait. rewrite E1, E2, E3.
  by rewrite elements_empty.
Qed.

(** X3: after [unsubscribeAll] a broadcast changes nothing at all, every
    [unsubscribe] with an argument raises [KeyError], and
    [unsubscribe()] returns without effect. *)
Theorem unsubscribeAll_silences self :
  (∀ x w, _put_nowait x (unsubscribeAll self) w = w) ∧
  (∀ o, unsubscribe (Some o) (unsubscribeAll self) = Raise (KeyError o)) ∧
  unsubscribe None (unsubscribeAll self) = Ok (unsubscribeAll self).
Proof.
  split_and!.
  - intros x w. by apply put_nowait_no_subscriber.
  - intros o. apply unsubscribe_given_unregistered.
    unfold registered; cbn. set_solver.
  - done.
Qed.

Lemma producer_do_ops_ready (os : list (op item)) (p : producer) w :
  _ready p = false → _ready (do_ops os p w).1 = false.
Proof.
  unfold do_ops.
  revert p w; induction os as [|o os IH]; intros p w Hp; [done|].
  cbn [foldl fst snd]. destruct o as [m|]; cbn [do_op].
  - destruct (do_call m _ w) as [r w']. by apply IH.
  - by apply IH.
Qed.

(** X4: [close] on the producer core is idempotent; after it a
    broadcast changes nothing and no call makes the producer ready
    again; but [subscribe] is not guarded by the shutdown flag: a queue
    subscribed after [close] receives the items broadcast from then
    on. *)
Theorem producer_close_empties_but_does_not_lock (p : producer) :
  close (close p) = close p ∧
  (∀ x w, _put_nowait x (attrs (close p)) w = w) ∧
  (∀ (os : list (op item)) w, _ready (do_ops os (close p) w).1 = false) ∧
  (∀ q x w, has_put_nowait q = true →
     contents (_put_nowait x (subscribe (Some q) (attrs (close p)) w).1.2 w) q =
     contents w q ++ [x]).
Proof.
  split_and!.
  - done.
  - intros x w. by apply put_nowait_no_subscriber.
  - intros os w. by apply producer_do_ops_ready.
  - intros q x w Hq. rewrite subscribe_eq. cbn [fst snd].
    rewrite put_nowait_contents, add_to_subscriptions, Hq.
    rewrite decide_True by set_solver. done.
Qed.

Lemma broadcast_all_contents (xs : list item) self w q :
  contents (broadcast_all xs self w) q =
  if decide (q ∈ __subscriptions self) then contents w q ++ xs else contents w q.
Proof.
  unfold broadcast_all. revert w; induction xs as [|x xs IH]; intros w; cbn [foldl].
  - case_decide; [by rewrite app_nil_r|done].
  - rewrite IH, put_nowait_contents. case_decide; [|done]. by rewrite <- app_assoc.
Qed.

(** X5: two calls of [subscribe()] return two different queues, and
    each of them receives every item broadcast afterwards, in order. *)
Theorem subscriptions_are_independent self w (xs : list item) :
  cls_has_put_nowait (__defaultSubscriptionClass self) = true →
  let r1 := subscribe None self w in
  let r2 := subscribe None r1.1.2 r1.2 in
  r1.1.1 ≠ r2.1.1 ∧
  contents (broadcast_all xs r2.1.2 r2.2) r1.1.1 = xs ∧
  contents (broadcast_all xs r2.1.2 r2.2) r2.1.1 = xs.
Proof.
  intros Hcls r1 r2. unfold r2, r1. rewrite !subscribe_eq. cbn [fst snd].
  rewrite (proj2 (add_to_default _ self)).
  set (s1 := (construct (__defaultSubscriptionClass self) w).1).
  set (w1 := (construct (__defaultSubscriptionClass self) w).2).
  set (s2 := (construct (__defaultSubscriptionClass self) w1).1).
  assert (Hne : s2 ≠ s1).
  { apply construct_fresh. apply construct_allocated. }
  assert (H1 : has_put_nowait s1 = true) by done.
  assert (H2 : has_put_nowait s2 = true) by done.
  split; [done|].
  rewrite !broadcast_all_contents, !add_to_subscriptions, H1, H2.
  rewrite !decide_True by set_solver.
  rewrite !contents_construct. fold w1 s2 s1.
  rewrite (decide_False (P := s2 = s1)) by done.
  rewrite decide_True by done. fold s1.
  unfold w1, s1. rewrite contents_construct. by rewrite decide_True.
Qed.

Lemma unsubscribe_given_keeps_callbacks o c self self' :
  o ≠ c → unsubscribe_given o self = Ok self' →
  (c ∈ __callbacks self → c ∈ __callbacks self') ∧
  (c ∈ __cocallbacks self → c ∈ __cocallbacks self').
Proof.
  intros Hne. rewrite unsubscribe_given_eq.
  destruct (has_put_nowait o), (iscoroutinefunction o); case_decide; intros [= <-]; cbn;
    set_solver.
Qed.

Lemma do_call_world_logs (m : call item) self w :
  (∀ x, m ≠ PutNowait x) →
  called (do_call m self w).2 = called w ∧ futures (do_call m self w).2 = futures w.
Proof.
  intros Hm. destruct m as [arg|arg| | |x]; cbn.
  - rewrite subscribe_eq. by destruct arg.
  - by destruct (unsubscribe arg self).
  - done.
  - destruct (__defaultSubscription self) as [d|] eqn:E.
    + rewrite (get_some d) by done. cbn. rewrite queue_get_eq. cbn.
      by destruct (contents w d).
    + by rewrite get_none.
  - by destruct (Hm x).
Qed.

(** A callback, synchronous or not, across one call that keeps it. *)
Lemma do_call_callback c (m : call item) self w :
  allocated w c → __defaultSubscription self ≠ Some c → keeps c m →
  allocated (do_call m self w).2 c ∧ __defaultSubscription (do_call m self w).1 ≠ Some c ∧
  (c ∈ __callbacks self →
   c ∈ __callbacks (do_call m self w).1 ∧
   calls_of c (called (do_call m self w).2) = calls_of c (called w) ++ broadcasts [m]) ∧
  (c ∈ __cocallbacks self →
   c ∈ __cocallbacks (do_call m self w).1 ∧
   calls_of c (futures (do_call m self w).2) = calls_of c (futures w) ++ broadcasts [m]).
Proof.
  intros Ha Hd Hk.
  assert (Hal : allocated (do_call m self w).2 c).
  { unfold allocated in *. pose proof (do_call_next_oid m self w). lia. }
  split; [done|].
  destruct m as [arg|arg| | |x].
  - destruct (do_call_world_logs (Subscribe arg) self w) as [-> ->]; [done|].
    cbn. rewrite subscribe_eq, !app_nil_r.
    destruct arg as [o|]; cbn;
      rewrite (proj1 (add_to_default _ _)), add_to_callbacks, add_to_cocallbacks;
      (split; [done|]).
    + destruct (has_put_nowait o), (iscoroutinefunction o); split; intros; split;
        try done; set_solver.
    + destruct (cls_has_put_nowait _), (cls_iscoroutinefunction _); split; intros; split;
        try done; set_solver.
  - destruct (do_call_world_logs (Unsubscribe arg) self w) as [-> ->]; [done|].
    cbn. rewrite !app_nil_r. destruct arg as [o|]; cbn in *.
    + destruct (unsubscribe_given o self) eqn:E; cbn; [|done].
      rewrite (proj1 (unsubscribe_given_default _ _ _ E)).
      destruct (unsubscribe_given_keeps_callbacks o c _ _ Hk E) as [H1 H2].
      split; [done|]. split; intros; split; auto.
    + destruct (__defaultSubscription self) as [d|] eqn:Ed; [|cbn; by rewrite Ed].
      destruct (unsubscribe_given d self) eqn:E; cbn; [|by rewrite Ed].
      assert (Hne : d ≠ c) by congruence.
      destruct (unsubscribe_given_keeps_callbacks d c _ _ Hne E) as [H1 H2].
      split; [done|]. split; intros; split; auto.
  - done.
  - destruct (do_call_world_logs Get self w) as [-> ->]; [done|].
    cbn. rewrite !app_nil_r.
    destruct (__defaultSubscription self) as [d|] eqn:Ed.
    + rewrite (get_some d) by done. cbn. by rewrite Ed.
    + rewrite get_none by done. cbn.
      pose proof (construct_fresh (__defaultSubscriptionClass self) w c Ha) as Hf.
      rewrite add_to_callbacks, add_to_cocallbacks.
      split; [cbn in Hf; congruence|].
      destruct (cls_has_put_nowait _), (cls_iscoroutinefunction _); split; intros; split;
        try done; set_solver.
  - cbn. split; [done|].
    rewrite put_nowait_calls_of, put_nowait_futures_of.
    split; intros Hin; rewrite decide_True by done; done.
Qed.

Lemma do_calls_callback c (ms : list (call item)) self w :
  allocated w c → __defaultSubscription self ≠ Some c → Forall (keeps c) ms →
  (c ∈ __callbacks self →
   calls_of c (called (do_calls ms self w).2) = calls_of c (called w) ++ broadcasts ms) ∧
  (c ∈ __cocallbacks self →
   calls_of c (futures (do_calls ms self w).2) = calls_of c (futures w) ++ broadcasts ms).
Proof.
  revert self w; induction ms as [|m ms IH]; intros self w Ha Hd Hk.
  - cbn. by rewrite !app_nil_r.
  - apply Forall_cons in Hk as [Hm Hk].
    destruct (do_call_callback c m self w) as (H1 & H2 & H3 & H4); [done..|].
    rewrite do_calls_cons, broadcasts_cons.
    destruct (IH _ _ H1 H2 Hk) as [H5 H6].
    split; intros Hin.
    + destruct (H3 Hin) as [H7 H8]. by rewrite (H5 H7), H8, app_assoc.
    + destruct (H4 Hin) as [H7 H8]. by rewrite (H6 H7), H8, app_assoc.
Qed.

(** X6: over any sequence of calls that keeps a callback registered, a
    synchronous callback is called with exactly the items broadcast, in
    order, and an asynchronous callback has exactly one invocation
    scheduled per item broadcast, in order. *)
Theorem callbacks_see_every_broadcast c (ms : list (call item)) self w :
  allocated w c → __defaultSubscription self ≠ Some c → Forall (keeps c) ms →
  (c ∈ __callbacks self →
   calls_of c (called (do_calls ms self w).2) = calls_of c (called w) ++ broadcasts ms) ∧
  (c ∈ __cocallbacks self →
   calls_of c (futures (do_calls ms self w).2) = calls_of c (futures w) ++ broadcasts ms).
Proof. apply do_calls_callback. Qed.
End ProducerMore.

(** ** Consumer core: feeding and reading *)

Section ConsumerMore.
Context {item : Type}.
Import BaseSubscriptionConsumer.
Implicit Types (w : world item) (self : consumer item) (t : task item)
         (st : status item) (c : config item) (q s : pyobj) (x v : item).

(** X7: after [putSubscription(s)] the [subscription] property reads
    [s], unless [s] is the direct-feed queue itself, in which case it
    reads [None]. *)
Theorem putSubscription_then_subscription s self :
  subscription (putSubscription s self) =
  if decide (s = __directPutSubscription self) then None else Some s.
Proof.
  destruct (putSubscription_fields s self) as (H1 & H2 & _).
  unfold subscription. rewrite H1, H2. done.
Qed.

(** A call of [_get] that finds an item in the active subscription. *)
Lemma get_takes_head self w x rest :
  _shouldClose self = false → contents w (_subscription self) = x :: rest →
  _get [Env RunTask; Resume] self w =
  (with_getTask (Some (Task (_subscription self) (Finished x))) self,
   set_contents (_subscription self) rest w, Returned x).
Proof.
  intros Hc Hq. unfold _get, _get_loop. rewrite Hc. cbn.
  unfold run_task; cbn. rewrite Hq. done.
Qed.

(** X8: a call of [_get] on a consumer that is not closed returns the
    oldest item buffered in the active subscription and takes exactly
    that item out of the buffer. *)
Theorem get_returns_oldest_item self w x rest :
  _shouldClose self = false → contents w (_subscription self) = x :: rest →
  let c := _get [Env RunTask; Resume] self w in
  c.2 = Returned x ∧
  contents c.1.2 (_subscription self) = rest ∧
  (∀ q, q ≠ _subscription self → contents c.1.2 q = contents w q) ∧
  _subscription c.1.1 = _subscription self.
Proof.
  intros Hc Hq c. unfold c. rewrite (get_takes_head self w x rest) by done. cbn [fst snd].
  split_and!; [done| | |done].
  - by rewrite contents_set_contents, decide_True.
  - intros q Hne. by rewrite contents_set_contents, decide_False.
Qed.

(** X9: an item passed to [put_nowait] comes out of the next [_get]
    when nothing else is buffered in the direct-feed queue: always so
    when an external subscription was active, since the direct-feed
    queue is then a new one. *)
Theorem put_nowait_then_get x self w :
  _shouldClose self = false →
  _subscription self ≠ __directPutSubscription self ∨
  contents w (__directPutSubscription self) = [] →
  (_get [Env RunTask; Resume] (put_nowait x self w).1 (put_nowait x self w).2).2 =
  Returned x.
Proof.
  intros Hc Hb. rewrite put_nowait_eq.
  destruct (decide (_subscription self = __directPutSubscription self)) as [E|E];
    cbn [fst snd].
  - destruct Hb as [Hb|Hb]; [done|].
    rewrite (get_takes_head self _ x []); [done|done|].
    rewrite E, contents_queue_put_nowait, decide_True by done. by rewrite Hb.
  - destruct (stop_fields self w) as (H1 & H2 & _ & H4 & _ & _ & H7). cbn zeta in *.
    rewrite (get_takes_head _ _ x []); [done|congruence|].
    rewrite H1, H2, H7, contents_queue_put_nowait, decide_True by done.
    rewrite contents_construct. by rewrite decide_True.
Qed.

Lemma run_only_scheduler_empty (evs : list (event item)) self w s :
  Forall only_scheduler evs →
  _getTask self = Some (Task s Pending) → _shouldClose self = false →
  contents w s = [] →
  run evs (self, w, Awaiting) = (self, w, Awaiting).
Proof.
  intros Hev Ht Hc Hq. induction Hev as [|ev evs [-> | ->] _ IH]; [done| |].
  - cbn. rewrite Ht. unfold run_task; cbn. rewrite Hq.
    replace (with_getTask (Some (Task s Pending)) self) with self; [exact IH|].
    destruct self; cbn in *. by subst.
  - cbn. unfold _get_resume. rewrite Ht. cbn. exact IH.
Qed.

Lemma get_empty_eq (evs : list (event item)) self w :
  _shouldClose self = false → contents w (_subscription self) = [] →
  Forall only_scheduler evs →
  _get evs self w =
  (with_getTask (Some (Task (_subscription self) Pending)) self, w, Awaiting).
Proof.
  intros Hc Hq Hev. unfold _get, _get_loop. rewrite Hc.
  by apply (run_only_scheduler_empty evs _ w (_subscription self)).
Qed.

(** X10: [stop] makes a new, empty queue the active subscription, so
    that [subscription] reads [None]; the buffers of the queues that
    exist are left as they are, out of reach: a [_get] that follows
    stays suspended even if items were buffered before. *)
Theorem stop_abandons_buffered_items self w :
  let r := stop self w in
  subscription r.1 = None ∧ ¬ allocated w (_subscription r.1) ∧
  contents r.2 (_subscription r.1) = [] ∧
  (∀ q, allocated w q → contents r.2 q = contents w q) ∧
  (_shouldClose self = false → (_get [Env RunTask; Resume] r.1 r.2).2 = Awaiting).
Proof.
  intros r. unfold r.
  destruct (stop_fields self w) as (H1 & H2 & _ & H4 & _ & _ & H7). cbn zeta in *.
  assert (Hempty : contents (stop self w).2 (_subscription (stop self w).1) = []).
  { rewrite H1, H7, contents_construct. by rewrite decide_True. }
  split_and!.
  - apply subscription_direct. by rewrite H1, H2.
  - rewrite H1. apply construct_not_allocated.
  - done.
  - intros q Hq. rewrite H7, contents_construct.
    rewrite decide_False; [done|]. by apply construct_fresh.
  - intros Hc. rewrite get_empty_eq; [done|congruence|done|].
    apply Forall_cons; split; [by left|]. apply Forall_cons; split; [by right|done].
Qed.

(** X11: while the active subscription is empty and nobody feeds it, a
    call of [_get] stays suspended, however often the scheduler runs
    it, and changes nothing in the store. *)
Theorem get_waits_while_empty (evs : list (event item)) self w :
  _shouldClose self = false → contents w (_subscription self) = [] →
  Forall only_scheduler evs →
  _get evs self w =
  (with_getTask (Some (Task (_subscription self) Pending)) self, w, Awaiting).
Proof.
  intros Hc Hq Hev. by apply get_empty_eq.
Qed.

Lemma get_resume_raises_closed_only self e :
  (_get_resume self).2 = Raised e → e = SubscriptionClosed.
Proof.
  unfold _get_resume, _get_loop.
  destruct (_getTask self) as [[a [| |v| |e0]]|]; cbn [state]; try done;
    try destruct e0; destruct (_shouldClose self); cbn; congruence.
Qed.

Lemma run_raises_closed_only (evs : list (event item)) c :
  (∀ e, c.2 = Raised e → e = SubscriptionClosed) →
  ∀ e, (run evs c).2 = Raised e → e = SubscriptionClosed.
Proof.
  revert c; induction evs as [|ev evs IH]; intros c Hc; [done|].
  cbn. apply IH. destruct c as [[self w] st]; cbn in *. destruct ev as [ev|].
  - by destruct (env_step ev self w).
  - destruct st; try done.
    pose proof (get_resume_raises_closed_only self) as H.
    by destruct (_get_resume self).
Qed.

(** X12: an exception raised by the [get] of the active subscription
    does not leave [_get]: the loop starts a new wait on the active
    subscription; under no schedule does a call of [_get] raise
    anything but [SubscriptionClosed]. *)
Theorem get_swallows_source_errors self w s e0 :
  _getTask self = Some (Task s Pending) → _shouldClose self = false →
  run [Env (SourceRaises e0); Resume] (self, w, Awaiting) =
    (with_getTask (Some (Task (_subscription self) Pending)) self, w, Awaiting) ∧
  (∀ evs self0 w0 e, (_get evs self0 w0).2 = Raised e → e = SubscriptionClosed).
Proof.
  intros Ht Hc. split.
  - cbn. rewrite Ht. cbn. unfold _get_resume, _get_loop; cbn. rewrite Hc.
    by destruct e0.
  - intros evs self0 w0. unfold _get.
    destruct (_get_loop self0) as [self1 st] eqn:E.
    apply run_raises_closed_only. cbn. unfold _get_loop in E.
    destruct (_shouldClose self0); injection E as <- <-; congruence.
Qed.
End ConsumerMore.

(** ** A consumer reading from a producer *)

Section EndToEnd.
Context {item : Type}.
Implicit Types (w : world item) (x : item).

(** X13: a queue obtained from [subscribe()] and installed in a
    consumer with [putSubscription] carries a broadcast item from the
    producer's [_put_nowait] to the consumer's [_get]. *)
Theorem broadcast_reaches_consumer x (self : BaseSubscriptionProducer.registry)
    (c : BaseSubscriptionConsumer.consumer item) w :
  cls_has_put_nowait (BaseSubscriptionProducer.__defaultSubscriptionClass self) = true →
  BaseSubscriptionConsumer._shouldClose c = false →
  let r := BaseSubscriptionProducer.subscribe None self w in
  let c' := BaseSubscriptionConsumer.putSubscription r.1.1 c in
  let w' := BaseSubscriptionProducer._put_nowait x r.1.2 r.2 in
  (BaseSubscriptionConsumer._get
     [BaseSubscriptionConsumer.Env BaseSubscriptionConsumer.RunTask;
      BaseSubscriptionConsumer.Resume] c' w').2 =
  BaseSubscriptionConsumer.Returned x.
Proof.
  intros Hcls Hc r c' w'. unfold w', c', r. rewrite subscribe_eq. cbn [fst snd].
  set (q := (construct (BaseSubscriptionProducer.__defaultSubscriptionClass self) w).1).
  destruct (putSubscription_fields q c) as (H1 & _ & _ & H4 & _).
  rewrite (get_takes_head _ _ x []); [done|congruence|].
  rewrite H1, put_nowait_contents, add_to_subscriptions.
  change (has_put_nowait q)
    with (cls_has_put_nowait (BaseSubscriptionProducer.__defaultSubscriptionClass self)).
  rewrite Hcls, decide_True by set_solver.
  unfold q. rewrite contents_construct. by rewrite decide_True.
Qed.
End EndToEnd.

(** ** Thread-bridged producer *)

Section ThreadedProducerMore.
Context {item : Type}.
Import BaseSubscriptionProducer ThreadedSubscriptionProducer.
Implicit Types (w : world item) (self : threaded_producer item) (x : item)
         (l xs : list item).

Lemma threaded_run_app (e1 e2 : list (event item)) self w :
  run (e1 ++ e2) self w = run e2 (run e1 self w).1 (run e1 self w).2.
Proof. unfold run. rewrite foldl_app. by destruct (foldl _ _ e1). Qed.

Lemma threaded_run_cons (ev : event item) evs self w :
  run (ev :: evs) self w = run evs (step ev self w).1 (step ev self w).2.
Proof. unfold run. cbn [foldl fst snd]. by destruct (step ev self w). Qed.

Lemma threaded_test_puts xs self w :
  run (TestPut <$> xs) self w =
  (ThreadedProducer (base self) (_loop self) (testQueue self ++ xs)
                    (testResultQueue self) (_producerThread self), w).
Proof.
  revert self; induction xs as [|x xs IH]; intros self.
  - cbn. rewrite app_nil_r. by destruct self.
  - rewrite fmap_cons, threaded_run_cons. cbn [step fst snd]. rewrite IH. cbn.
    by rewrite <- app_assoc.
Qed.

Lemma threaded_worker_steps l self w :
  _producerThread self = Running → get_shouldClose self = false → testQueue self = l →
  run (replicate (length l) WorkerStep) self w =
  (ThreadedProducer (base self) (_loop self ++ l) [] (testResultQueue self) Running, w).
Proof.
  revert self; induction l as [|x l IH]; intros self Hr Hc Hq.
  - cbn. rewrite app_nil_r. destruct self; cbn in *. by subst.
  - cbn [length replicate]. rewrite threaded_run_cons. cbn [step fst snd].
    unfold _producer. rewrite Hr, Hc, Hq. rewrite IH; [|done..].
    cbn. by rewrite <- app_assoc.
Qed.

Lemma threaded_loop_steps l self w :
  _loop self = l →
  run (replicate (length l) LoopStep) self w =
  (ThreadedProducer (base self) [] (testQueue self) (testResultQueue self)
                    (_producerThread self),
   broadcast_all l (private self) w).
Proof.
  revert self w; induction l as [|x l IH]; intros self w Hl.
  - cbn. destruct self; cbn in *. by subst.
  - cbn [length replicate]. rewrite threaded_run_cons. cbn [step].
    unfold loop_run. rewrite Hl. cbn [fst snd]. by rewrite IH.
Qed.

(** X14: items put into the worker's test queue, taken by the worker
    thread and then run by the event loop are broadcast in the order
    they were put; the worker itself delivers nothing, it only schedules
    on the loop. *)
Theorem threaded_producer_delivers_in_order xs self w :
  _producerThread self = Running → get_shouldClose self = false →
  testQueue self = [] → _loop self = [] →
  (run ((TestPut <$> xs) ++ replicate (length xs) WorkerStep) self w).2 = w ∧
  run ((TestPut <$> xs) ++ replicate (length xs) WorkerStep ++
       replicate (length xs) LoopStep) self w =
    (self, broadcast_all xs (private self) w) ∧
  (∀ q, q ∈ __subscriptions (private self) →
        contents (broadcast_all xs (private self) w) q = contents w q ++ xs).
Proof.
  intros Hr Hc Hq Hl.
  assert (E : run ((TestPut <$> xs) ++ replicate (length xs) WorkerStep) self w =
              (ThreadedProducer (base self) xs [] (testResultQueue self) Running, w)).
  { rewrite threaded_run_app, threaded_test_puts. cbn [fst snd].
    rewrite (threaded_worker_steps xs); [|done|done|by cbn; rewrite Hq].
    cbn. by rewrite Hl. }
  split_and!.
  - by rewrite E.
  - rewrite app_assoc, threaded_run_app, E. cbn [fst snd].
    rewrite (threaded_loop_steps xs) by done. cbn.
    f_equal. destruct self; cbn in *. by subst.
  - intros q Hin. by rewrite broadcast_all_contents, decide_True.
Qed.

Lemma threaded_loop_steps_closed n self w :
  __subscriptions (private self) = ∅ → __callbacks (private self) = ∅ →
  __cocallbacks (private self) = ∅ →
  run (replicate n LoopStep) self w =
  (ThreadedProducer (base self) (drop n (_loop self)) (testQueue self)
                    (testResultQueue self) (_producerThread self), w).
Proof.
  intros H1 H2 H3. revert self w H1 H2 H3; induction n as [|n IH]; intros self w H1 H2 H3.
  - cbn. by destruct self.
  - cbn [replicate]. rewrite threaded_run_cons. cbn [step]. unfold loop_run.
    destruct (_loop self) as [|x l] eqn:El; cbn [fst snd].
    + rewrite IH by done. by rewrite El, !drop_nil.
    + rewrite put_nowait_no_subscriber by done. by rewrite IH.
Qed.

(** X15: [close] empties the registries at once, so the broadcasts
    that the worker had scheduled on the loop and that run after
    [close] reach nobody: the loop consumes them and the store does not
    change. *)
Theorem threaded_close_drops_scheduled_items n self w :
  (run (replicate n LoopStep) (close self) w).2 = w ∧
  _loop (run (replicate n LoopStep) (close self) w).1 = drop n (_loop self).
Proof.
  rewrite threaded_loop_steps_closed by done. done.
Qed.

(** X16: the worker sets readiness when it starts, whatever the
    shutdown flag says: when [close] is called before the worker thread
    has run, the producer ends up both shut down and ready, and the
    worker leaves at its next step, putting the end marker. *)
Theorem threaded_producer_ready_after_close self :
  _producerThread self = NotStarted →
  let s := _producer (close self) in
  get_ready (close self) = false ∧
  get_ready s = true ∧ get_shouldClose s = true ∧
  _producerThread (_producer s) = Exited ∧ testResultQueue (_producer s) = true ∧
  get_ready (_producer s) = true.
Proof.
  intros Hs s. unfold s, _producer. cbn. rewrite Hs. cbn. done.
Qed.
End ThreadedProducerMore.

(** ** Process-bridged producer *)

Section ProcessProducerMore.
Context {item : Type}.
Import BaseSubscriptionProducer ProcessSubscriptionProducer.
Implicit Types (w : world item) (self : process_producer item) (x : item)
         (l xs : list item).

Lemma process_run_app (e1 e2 : list (event item)) self w :
  run (e1 ++ e2) self w = run e2 (run e1 self w).1 (run e1 self w).2.
Proof. unfold run. rewrite foldl_app. by destruct (foldl _ _ e1). Qed.

Lemma process_run_cons (ev : event item) evs self w :
  run (ev :: evs) self w = run evs (step ev self w).1 (step ev self w).2.
Proof. unfold run. cbn [foldl fst snd]. by destruct (step ev self w). Qed.

Lemma process_puts xs self w :
  run ((fun x => Api (PutNowait x)) <$> xs) self w =
  (ProcessProducer (inherited self) (__readyEvent self) (__closeEvent self)
                   (_producerQueue self ++ xs) (_loop self) (_producerProcess self), w).
Proof.
  revert self; induction xs as [|x xs IH]; intros self.
  - cbn. rewrite app_nil_r. by destruct self.
  - rewrite fmap_cons, process_run_cons. cbn [step fst snd]. rewrite IH. cbn.
    by rewrite <- app_assoc.
Qed.

Lemma process_reader_steps l self w :
  _shouldClose self = false → _producerQueue self = l →
  run (replicate (length l) ReaderStep) self w =
  (ProcessProducer (inherited self) (__readyEvent self) (__closeEvent self)
                   [] (_loop self ++ l) (_producerProcess self), w).
Proof.
  revert self; induction l as [|x l IH]; intros self Hc Hq.
  - cbn. rewrite app_nil_r. destruct self; cbn in *. by subst.
  - cbn [length replicate]. rewrite process_run_cons. cbn [step fst snd].
    unfold __queueReader. rewrite Hc, Hq. rewrite IH; [|done..].
    cbn. by rewrite <- app_assoc.
Qed.

Lemma process_loop_steps l self w :
  _loop self = l →
  run (replicate (length l) LoopStep) self w =
  (ProcessProducer (inherited self) (__readyEvent self) (__closeEvent self)
                   (_producerQueue self) [] (_producerProcess self),
   broadcast_all l (private self) w).
Proof.
  revert self w; induction l as [|x l IH]; intros self w Hl.
  - cbn. destruct self; cbn in *. by subst.
  - cbn [length replicate]. rewrite process_run_cons. cbn [step].
    unfold loop_run. rewrite Hl. cbn [fst snd]. by rewrite IH.
Qed.

(** X17: items that the child process passes to [_put_nowait] go
    through the cross-process queue, are taken by the bridging thread
    and run by the event loop, and are broadcast in the order they were
    put; before the loop runs, nothing has been delivered. *)
Theorem process_producer_delivers_in_order xs self w :
  _shouldClose self = false → _producerQueue self = [] → _loop self = [] →
  (run (((fun x => Api (PutNowait x)) <$> xs) ++
        replicate (length xs) ReaderStep) self w).2 = w ∧
  run (((fun x => Api (PutNowait x)) <$> xs) ++ replicate (length xs) ReaderStep ++
       replicate (length xs) LoopStep) self w =
    (self, broadcast_all xs (inherited self) w) ∧
  (∀ q, q ∈ __subscriptions (inherited self) →
        contents (broadcast_all xs (inherited self) w) q = contents w q ++ xs).
Proof.
  intros Hc Hq Hl.
  assert (E : run (((fun x => Api (PutNowait x)) <$> xs) ++
                   replicate (length xs) ReaderStep) self w =
              (ProcessProducer (inherited self) (__readyEvent self) (__closeEvent self)
                               [] xs (_producerProcess self), w)).
  { rewrite process_run_app, process_puts. cbn [fst snd].
    rewrite (process_reader_steps xs); [|done|by cbn; rewrite Hq].
    cbn. by rewrite Hl. }
  split_and!.
  - by rewrite E.
  - rewrite app_assoc, process_run_app, E. cbn [fst snd].
    rewrite (process_loop_steps xs) by done. cbn.
    f_equal. destruct self; cbn in *. by subst.
  - intros q Hin. by rewrite broadcast_all_contents, decide_True.
Qed.

End ProcessProducerMore.

Section ProcessProducerClose.
Context {item : Type}.
Import BaseSubscriptionProducer ProcessSubscriptionProducer.
Implicit Types (w : world item) (self : process_producer item).

Lemma process_loop_steps_closed n self w :
  __subscriptions (private self) = ∅ → __callbacks (private self) = ∅ →
  __cocallbacks (private self) = ∅ →
  run (replicate n LoopStep) self w =
  (ProcessProducer (inherited self) (__readyEvent self) (__closeEvent self)
                   (_producerQueue self) (drop n (_loop self)) (_producerProcess self), w).
Proof.
  intros H1 H2 H3. revert self w H1 H2 H3; induction n as [|n IH]; intros self w H1 H2 H3.
  - cbn. by destruct self.
  - cbn [replicate]. rewrite process_run_cons. cbn [step]. unfold loop_run.
    destruct (_loop self) as [|x l] eqn:El; cbn [fst snd].
    + rewrite IH by done. by rewrite El, !drop_nil.
    + rewrite put_nowait_no_subscriber by done. by rewrite IH.
Qed.

(** X18: [close] on the process-bridged producer empties the
    registries at once, so the broadcasts that the bridging thread had
    scheduled on the loop and that run after [close] reach nobody: the
    loop consumes them and the store does not change. *)
Theorem process_close_drops_scheduled_items n self w :
  (run (replicate n LoopStep) (close self) w).2 = w ∧
  _loop (run (replicate n LoopStep) (close self) w).1 = drop n (_loop self).
Proof.
  rewrite process_loop_steps_closed by done. done.
Qed.
End ProcessProducerClose.

(** ** Thread-bridged consumer: the worker *)

Section ThreadedConsumerMore.
Context {item : Type}.
Import BaseSubscriptionConsumer ThreadedSubscriptionConsumer.
Implicit Types (w : world item) (self : consumer item) (tc : threaded_consumer item).

(** X19: in the thread-bridged [_get] an exception of the awaited
    [get] other than the three that are handled leaves [_get]; the
    worker's [_consumer], which handles [SubscriptionClosed] only, ends
    with it and puts no end marker.  The consumer core would have
    started a new wait. *)
Theorem threaded_get_propagates_other_errors b self s e :
  e ≠ CancelledError → e ≠ TimeoutError → e ≠ SubscriptionClosed →
  _getTask self = Some (Task s (Failed e)) →
  _get_step b self Blocked = (self, Raised e) ∧
  (∀ tc, base tc = self → _consumerThread tc = InGet Blocked →
         _consumer b tc = ThreadedConsumer self (testQueue tc) (Exited (Some e))) ∧
  BaseSubscriptionConsumer._get_resume self = BaseSubscriptionConsumer._get_loop self.
Proof.
  intros H1 H2 H3 Ht.
  assert (E : _get_step b self Blocked = (self, Raised e)).
  { cbn. rewrite Ht. unfold result; cbn. by destruct e. }
  split_and!.
  - done.
  - intros tc <- Hpc. unfold _consumer. rewrite Hpc, E. by destruct e.
  - unfold _get_resume. rewrite Ht. cbn. by destruct e.
Qed.

Lemma consumer_end_marker b tc :
  (None ∈ testQueue tc ↔ _consumerThread tc = Exited None) →
  (None ∈ testQueue (_consumer b tc) ↔ _consumerThread (_consumer b tc) = Exited None).
Proof.
  intros Hinv. unfold _consumer.
  destruct (_consumerThread tc) as [|pc|e] eqn:E; cbn [testQueue _consumerThread].
  - split; [by intros ?%elem_of_nil|done].
  - assert (Hn : None ∉ testQueue tc) by (intros H%Hinv; done).
    destruct (_get_step b (base tc) pc) as [b' pc']; cbn.
    destruct pc' as [| | |v|e]; cbn [testQueue _consumerThread].
    + split; [intros H; by apply Hn in H|done].
    + split; [intros H; by apply Hn in H|done].
    + split; [intros H; by apply Hn in H|done].
    + split; [|done]. intros [H|H]%elem_of_app; [by apply Hn in H|].
      by apply list_elem_of_singleton in H.
    + destruct e; cbn [testQueue _consumerThread];
        try (split; [intros H; by apply Hn in H|done]).
      split; [done|]. intros _. apply elem_of_app. right. by apply list_elem_of_singleton.
  - by rewrite E.
Qed.

Lemma run_end_marker (evs : list (get_event item)) tc w :
  (None ∈ testQueue tc ↔ _consumerThread tc = Exited None) →
  (None ∈ testQueue (run evs tc w).1 ↔ _consumerThread (run evs tc w).1 = Exited None).
Proof.
  unfold run.
  revert tc w; induction evs as [|ev evs IH]; intros tc w Hinv; [done|].
  cbn [foldl]. destruct ev as [e|b]; cbn [step fst snd].
  - destruct (env_step e (base tc) w) as [b' w']. by apply IH.
  - by apply IH, consumer_end_marker.
Qed.

(** X20: whatever happens to a new thread-bridged consumer, the end
    marker is in the worker's result queue exactly when the worker has
    left through [SubscriptionClosed]; a worker that died of another
    exception has put none. *)
Theorem threaded_consumer_end_marker (evs : list (get_event item)) ty w0 :
  let tc := (run evs (__init__ ty w0).1 (__init__ (item := item) ty w0).2).1 in
  None ∈ testQueue tc ↔ _consumerThread tc = Exited None.
Proof.
  cbn zeta. apply run_end_marker. cbn. split; [by intros ?%elem_of_nil|done].
Qed.

(** X21: the worker sets readiness when it starts, whatever the
    shutdown flag says: when [close] is called before the worker thread
    has run, the consumer ends up both shut down and ready; the worker
    then leaves at its first call of [_get], putting the end marker. *)
Theorem threaded_consumer_ready_after_close b b' tc :
  _consumerThread tc = NotStarted →
  let s := _consumer b (ThreadedConsumer (ThreadedSubscriptionConsumer.close (base tc))
                                         (testQueue tc) (_consumerThread tc)) in
  _ready (ThreadedSubscriptionConsumer.close (base tc)) = false ∧
  _ready (base s) = true ∧ _shouldClose (base s) = true ∧
  _consumerThread (_consumer b' s) = Exited None ∧
  testQueue (_consumer b' s) = [None].
Proof.
  intros Hs s. unfold s, _consumer. cbn [_consumerThread]. rewrite Hs.
  cbn [_consumerThread base testQueue].
  unfold ThreadedSubscriptionConsumer.close. rewrite close_eq. cbn. done.
Qed.
End ThreadedConsumerMore.

(** ** Producer and consumer in one object *)

Section CompositeMore.
Context {item : Type}.
Import SubscriptionProducerConsumer.
Implicit Types (w : world item) (self : producer_consumer item).

(** X22: [close] on the composite closes both halves through the two
    shared attributes: the wait loop raises [SubscriptionClosed], a
    broadcast changes nothing, the object is not ready; the active
    subscription of the consumer half is kept; and closing again changes
    nothing. *)
Theorem composite_close_closes_both self :
  let s := close self in
  BaseSubscriptionConsumer._get_loop (consumer_part s) =
    (consumer_part s, BaseSubscriptionConsumer.Raised SubscriptionClosed) ∧
  (∀ x w, BaseSubscriptionProducer._put_nowait x (producer_part s) w = w) ∧
  BaseSubscriptionProducer.get_ready s = false ∧
  BaseSubscriptionProducer.get_shouldClose s = true ∧
  BaseSubscriptionConsumer.subscription (consumer_part s) =
    BaseSubscriptionConsumer.subscription (consumer_part self) ∧
  close s = s.
Proof.
  cbn zeta. unfold close. cbn. rewrite !close_eq. cbn.
  split_and!; try done; try (intros x w; by apply put_nowait_no_subscriber).
  unfold with_consumer; cbn. f_equal. f_equal.
  destruct (BaseSubscriptionConsumer._getTask (consumer_part self)) as [t|]; cbn; [|done].
  by rewrite cancel_cancel.
Qed.
End CompositeMore.

(** ** The further properties at the sample objects *)

Lemma another_queue_not_registered : ¬ BaseSubscriptionProducer.registered a_registry another_queue.
Proof.
  unfold BaseSubscriptionProducer.registered, a_registry; cbn.
  intros [H|[H|H]]; apply elem_of_singleton in H; discriminate.
Qed.

Lemma a_registry_unsubscribe_a_queue :
  BaseSubscriptionProducer.unsubscribe (Some a_queue) a_registry =
  Ok (BaseSubscriptionProducer.Registry
        ({[a_queue]} ∖ {[a_queue]}) ({[a_callback]} ∖ {[a_queue]})
        ({[a_coroutine]} ∖ {[a_queue]}) asyncio_Queue None).
Proof.
  apply unsubscribe_given_registered; [apply a_registry_classified|].
  left. change (a_queue ∈ ({[a_queue]} : gset pyobj)). by apply elem_of_singleton_2.
Qed.

Lemma subscribe_then_unsubscribe_restores_witness :
  BaseSubscriptionProducer.unsubscribe (Some another_queue)
    (BaseSubscriptionProducer.subscribe (Some another_queue) a_registry a_world).1.2 =
  Ok a_registry.
Proof.
  apply (subscribe_then_unsubscribe_restores (item := nat));
    [apply a_registry_classified|apply another_queue_not_registered].
Defined.

Lemma unsubscribe_ends_delivery_witness :
  BaseSubscriptionProducer.unsubscribe (Some a_queue)
    (BaseSubscriptionProducer.Registry
       ({[a_queue]} ∖ {[a_queue]}) ({[a_callback]} ∖ {[a_queue]})
       ({[a_coroutine]} ∖ {[a_queue]}) asyncio_Queue None) =
  Raise (KeyError a_queue).
Proof.
  exact (proj1 (unsubscribe_ends_delivery a_queue a_registry _ 1 a_world
                  a_registry_classified a_registry_unsubscribe_a_queue)).
Defined.

Lemma subscriptions_are_independent_witness :
  contents
    (broadcast_all [1; 2]
       (BaseSubscriptionProducer.subscribe None
          (BaseSubscriptionProducer.subscribe None a_registry a_world).1.2
          (BaseSubscriptionProducer.subscribe None a_registry a_world).2).1.2
       (BaseSubscriptionProducer.subscribe None
          (BaseSubscriptionProducer.subscribe None a_registry a_world).1.2
          (BaseSubscriptionProducer.subscribe None a_registry a_world).2).2)
    (BaseSubscriptionProducer.subscribe None a_registry a_world).1.1 = [1; 2].
Proof.
  exact (proj1 (proj2 (subscriptions_are_independent a_registry a_world [1; 2] eq_refl))).
Defined.

Lemma callbacks_see_every_broadcast_witness :
  calls_of a_callback
    (called (BaseSubscriptionProducer.do_calls
               [BaseSubscriptionProducer.PutNowait 1; BaseSubscriptionProducer.Get;
                BaseSubscriptionProducer.PutNowait 2] a_registry a_world).2) = [1; 2].
Proof.
  destruct (callbacks_see_every_broadcast a_callback
              [BaseSubscriptionProducer.PutNowait 1; BaseSubscriptionProducer.Get;
               BaseSubscriptionProducer.PutNowait 2] a_registry a_world) as [H _].
  - unfold allocated; cbn; lia.
  - done.
  - repeat constructor.
  - apply H. change (a_callback ∈ ({[a_callback]} : gset pyobj)).
    by apply elem_of_singleton_2.
Defined.

Lemma get_returns_oldest_item_witness :
  (BaseSubscriptionConsumer._get
     [BaseSubscriptionConsumer.Env BaseSubscriptionConsumer.RunTask;
      BaseSubscriptionConsumer.Resume] a_waiting_consumer a_fed_world).2 =
  BaseSubscriptionConsumer.Returned 7.
Proof.
  exact (proj1 (get_returns_oldest_item a_waiting_consumer a_fed_world 7 [8]
                  eq_refl eq_refl)).
Defined.

Lemma put_nowait_then_get_witness :
  (BaseSubscriptionConsumer._get
     [BaseSubscriptionConsumer.Env BaseSubscriptionConsumer.RunTask;
      BaseSubscriptionConsumer.Resume]
     (BaseSubscriptionConsumer.put_nowait 5 a_waiting_consumer a_fed_world).1
     (BaseSubscriptionConsumer.put_nowait 5 a_waiting_consumer a_fed_world).2).2 =
  BaseSubscriptionConsumer.Returned 5.
Proof.
  apply (put_nowait_then_get 5 a_waiting_consumer a_fed_world); [reflexivity|].
  left. discriminate.
Defined.

Lemma get_waits_while_empty_witness :
  (BaseSubscriptionConsumer._get
     [BaseSubscriptionConsumer.Env BaseSubscriptionConsumer.RunTask;
      BaseSubscriptionConsumer.Resume;
      BaseSubscriptionConsumer.Env BaseSubscriptionConsumer.RunTask;
      BaseSubscriptionConsumer.Resume] a_waiting_consumer a_world).2 =
  BaseSubscriptionConsumer.Awaiting.
Proof.
  rewrite (get_waits_while_empty _ a_waiting_consumer a_world); [reflexivity..|].
  repeat (apply Forall_cons; split; [by (left + right)|]). apply Forall_nil_2.
Defined.

Lemma get_swallows_source_errors_witness :
  BaseSubscriptionConsumer.run
    [BaseSubscriptionConsumer.Env (BaseSubscriptionConsumer.SourceRaises (OtherError 0));
     BaseSubscriptionConsumer.Resume]
    (a_waiting_consumer, a_world, BaseSubscriptionConsumer.Awaiting) =
  (a_waiting_consumer, a_world, BaseSubscriptionConsumer.Awaiting).
Proof.
  exact (proj1 (get_swallows_source_errors a_waiting_consumer a_world a_queue (OtherError 0)
                  eq_refl eq_refl)).
Defined.

Lemma broadcast_reaches_consumer_witness :
  (BaseSubscriptionConsumer._get
     [BaseSubscriptionConsumer.Env BaseSubscriptionConsumer.RunTask;
      BaseSubscriptionConsumer.Resume]
     (BaseSubscriptionConsumer.putSubscription
        (BaseSubscriptionProducer.subscribe None a_registry a_world).1.1
        a_waiting_consumer)
     (BaseSubscriptionProducer._put_nowait 9
        (BaseSubscriptionProducer.subscribe None a_registry a_world).1.2
        (BaseSubscriptionProducer.subscribe None a_registry a_world).2)).2 =
  BaseSubscriptionConsumer.Returned 9.
Proof.
  exact (broadcast_reaches_consumer 9 a_registry a_waiting_consumer a_world
           eq_refl eq_refl).
Defined.

Lemma threaded_producer_delivers_in_order_witness :
  contents (broadcast_all [1; 2; 3] a_registry a_world) a_queue = [1; 2; 3].
Proof.
  destruct (threaded_producer_delivers_in_order [1; 2; 3] a_running_threaded_producer
              a_world eq_refl eq_refl eq_refl eq_refl) as (_ & _ & H).
  apply (H a_queue). change (a_queue ∈ ({[a_queue]} : gset pyobj)).
  by apply elem_of_singleton_2.
Defined.

Lemma threaded_producer_ready_after_close_witness :
  BaseSubscriptionProducer.get_ready
    (ThreadedSubscriptionProducer._producer
       (ThreadedSubscriptionProducer.close a_new_threaded_producer)) = true.
Proof.
  exact (proj1 (proj2 (threaded_producer_ready_after_close a_new_threaded_producer
                         eq_refl))).
Defined.

Lemma process_producer_delivers_in_order_witness :
  contents (broadcast_all [4; 5] a_registry a_world) a_queue = [4; 5].
Proof.
  destruct (process_producer_delivers_in_order [4; 5] a_process_producer
              a_world eq_refl eq_refl eq_refl) as (_ & _ & H).
  apply (H a_queue). change (a_queue ∈ ({[a_queue]} : gset pyobj)).
  by apply elem_of_singleton_2.
Defined.

Lemma threaded_get_propagates_other_errors_witness :
  ThreadedSubscriptionConsumer._get_step true a_failed_consumer
    ThreadedSubscriptionConsumer.Blocked =
  (a_failed_consumer, ThreadedSubscriptionConsumer.Raised (OtherError 0)).
Proof.
  apply (threaded_get_propagates_other_errors true a_failed_consumer a_queue (OtherError 0));
    [discriminate..|reflexivity].
Defined.

Lemma threaded_consumer_ready_after_close_witness :
  BaseSubscriptionConsumer._ready
    (ThreadedSubscriptionConsumer.base
       (ThreadedSubscriptionConsumer._consumer true
          (ThreadedSubscriptionConsumer.ThreadedConsumer
             (ThreadedSubscriptionConsumer.close
                (ThreadedSubscriptionConsumer.base a_new_threaded_consumer))
             (ThreadedSubscriptionConsumer.testQueue a_new_threaded_consumer)
             (ThreadedSubscriptionConsumer._consumerThread a_new_threaded_consumer)))) =
  true.
Proof.
  exact (proj1 (proj2 (threaded_consumer_ready_after_close true true
                         a_new_threaded_consumer eq_refl))).
Defined.
